(** * Order fulfillment pipeline: [process_orders]

    A shallow embedding of [sample_python.py] and the properties of its
    batch pipeline.

    Amounts (prices, totals, rates) are exact numbers, Python's [int] and
    [fractions.Fraction], whose sums, products and comparisons are exact:
    they are rationals [Q].  The one binary float of the source is the
    literal [0.01] of line 40; it enters through its exact value, against
    which Python compares an exact number.  Amounts held as binary floats,
    whose arithmetic rounds, are outside this model.  Order dictionaries are
    mutable Python objects passed by reference: the batch is a list of
    references into a heap of order records, and the failure list holds
    references too.
    The database, the webhook, the log file and the clock are external
    collaborators; every call to them is recorded in a trace. *)

From Stdlib Require Import ZArith QArith Qabs String List Bool Lia.
Import ListNotations.

Local Open Scope Q_scope.

(** ** Data model *)

(** An order item: [item["sku"]], [item["price"]], [item["quantity"]]. *)
Record item : Type := mk_item {
  i_sku : string;
  i_price : Q;
  i_quantity : Z
}.

(** An order dictionary.  Keys the source reads with [order.get] may be
    absent ([status], [total], [items]); [processed_at] is absent until the
    pipeline sets it. *)
Record order : Type := mk_order {
  o_id : Z;
  o_customer_id : Z;
  o_status : option string;
  o_total : option Q;
  o_items : option (list item);
  o_processed_at : option Z
}.

(** A customer row: only [customer["status"]] is read. *)
Record customer : Type := mk_customer { c_status : string }.

(** An inventory row: only [stock["quantity"]] is read. *)
Record stock : Type := mk_stock { s_quantity : Z }.

Record config : Type := mk_config {
  tax_rate : Q;
  free_shipping_threshold : Q;
  shipping_rate : Q;
  webhook_url : string;
  log_dir : string
}.

(** References to order objects; [None] in a batch is Python's [None]. *)
Definition loc : Type := nat.

(** [{"order": order, "reason": ...}]: the entry aliases the order. *)
Record failed_entry : Type := mk_failed {
  fe_order : loc;
  fe_reason : string
}.

(** [{"order_id": ..., "total": ..., "status": "processed"}]. *)
Record processed_entry : Type := mk_processed {
  pe_order_id : Z;
  pe_total : Q;
  pe_status : string
}.

Record summary : Type := mk_summary {
  sm_total : nat;
  sm_failed : nat
}.

Record batch_result : Type := mk_batch {
  br_processed : list processed_entry;
  br_failed : list failed_entry;
  br_summary : summary
}.

(** The JSON body of the webhook call. *)
Record notification : Type := mk_notification {
  n_event : string;
  n_order_id : Z;
  n_total : Q
}.

(** The line written to [orders.log]: timestamp, order id, total. *)
Record log_line : Type := mk_log_line {
  ll_time : Z;
  ll_order_id : Z;
  ll_total : Q
}.

(** What one loop iteration does to the two result lists. *)
Inductive outcome : Type :=
| Skipped
| Failed (e : failed_entry)
| Processed (e : processed_entry).

Inductive exn : Type :=
| KeyError (key : string)
| StoreError
| RequestError
| LogError.

(** Calls to the collaborators, in the order they are made. *)
Inductive event : Type :=
| EvQueryCustomer (cid : Z)
| EvQueryInventory (sku : string)
| EvUpdateInventory (qty : Z) (sku : string)
| EvInsertProcessed (o : order)
| EvPost (url : string) (n : notification)
| EvLogWrite (dir : string) (line : log_line).

(** ** Comparisons of exact numbers *)

(** Python's [a > b]. *)
Definition Qgtb (a b : Q) : bool :=
  match a ?= b with Gt => true | _ => false end.

(** Python's [a <= b]. *)
Definition Qleb (a b : Q) : bool := Qle_bool a b.

(** ** Pricing (lines 35-38)

    On exact numbers Python's [+], [*] and [-] are the operations of the
    rationals, and the [int] literals 0 of lines 35 and 37 are the rational
    0, so lines 35-38 compute the values below without rounding. *)

(** [sum(i["price"] * i["quantity"] for i in order["items"])]: [sum] starts
    at 0 and adds from the left. *)
Definition subtotal_of (items : list item) : Q :=
  fold_left (fun acc i => acc + i_price i * inject_Z (i_quantity i)) items 0.

Definition tax_of (cfg : config) (subtotal : Q) : Q :=
  subtotal * tax_rate cfg.

Definition shipping_of (cfg : config) (subtotal : Q) : Q :=
  if Qgtb subtotal (free_shipping_threshold cfg) then 0 else shipping_rate cfg.

Definition total_of (cfg : config) (items : list item) : Q :=
  let subtotal := subtotal_of items in
  let tax := tax_of cfg subtotal in
  let shipping := shipping_of cfg subtotal in
  subtotal + tax + shipping.

(** The literal [0.01] of line 40: the binary64 number nearest to 1/100,
    which is 5764607523034235 / 2^59 and lies a little above 1/100. *)
Definition tolerance : Q := 5764607523034235 # 576460752303423488.

(** [abs(total - order["total"]) > 0.01]: the difference is exact, and an
    exact number is compared with a float by the float's exact value. *)
Definition total_mismatch (total declared : Q) : bool :=
  Qgtb (Qabs (total - declared)) tolerance.


(** ** Collaborators *)

(** Modelled from the spec: the store, the notifier, the logger and the
    clock are objects the source only calls ([db.query], [db.execute],
    [requests.post], [open]/[write], [datetime.now]); their code is not part
    of the repository.  They are taken as parameters over an external state
    [X], with the interface of the specification: lookups answer with a row
    or nothing, writes either succeed with a new state or report an error
    ([None]), which the source sees as a raised exception. *)
Record collaborators (X : Type) : Type := mk_collaborators {
  lookup_customer : X -> Z -> option customer;
  lookup_inventory : X -> string -> option stock;
  decrement_inventory : X -> Z -> string -> option X;
  save_processed_order : X -> order -> option X;
  send : X -> string -> notification -> option X;
  append_line : X -> string -> log_line -> option X;
  now : X -> Z
}.

Arguments lookup_customer {X} _ _ _.
Arguments lookup_inventory {X} _ _ _.
Arguments decrement_inventory {X} _ _ _ _.
Arguments save_processed_order {X} _ _ _.
Arguments send {X} _ _ _ _.
Arguments append_line {X} _ _ _ _.
Arguments now {X} _ _.

(** ** The world and the effect monad *)

Record world (X : Type) : Type := mk_world {
  ext : X;
  heap : loc -> order;
  trace : list event
}.

Arguments mk_world {X} _ _ _.
Arguments ext {X} _.
Arguments heap {X} _ _.
Arguments trace {X} _.

(** A computation ends with a value or with a raised exception; the world
    it leaves behind is kept in both cases. *)
Inductive result (X A : Type) : Type :=
| Ok (a : A) (w : world X)
| Raise (e : exn) (w : world X).

Arguments Ok {X A} _ _.
Arguments Raise {X A} _ _.

Definition M (X A : Type) : Type := world X -> result X A.

Definition ret {X A : Type} (a : A) : M X A := fun w => Ok a w.

Definition bind {X A B : Type} (m : M X A) (k : A -> M X B) : M X B :=
  fun w =>
    match m w with
    | Ok a w' => k a w'
    | Raise e w' => Raise e w'
    end.

Definition raise {X A : Type} (e : exn) : M X A := fun w => Raise e w.

(** [try: m  except: pass] with a bare [except]. *)
Definition try_except_pass {X : Type} (m : M X unit) : M X unit :=
  fun w =>
    match m w with
    | Ok _ w' => Ok tt w'
    | Raise _ w' => Ok tt w'
    end.

Declare Scope pipeline_scope.
Delimit Scope pipeline_scope with pipeline.
Notation "x <- m ;; k" := (bind m (fun x => k))
  (at level 61, m at next level, right associativity) : pipeline_scope.
Notation "m ;; k" := (bind m (fun _ => k))
  (at level 61, right associativity) : pipeline_scope.

Local Open Scope pipeline_scope.

Definition record_event {X : Type} (ev : event) (w : world X) : world X :=
  mk_world (ext w) (heap w) (trace w ++ [ev]).

Definition heap_set (h : loc -> order) (l : loc) (o : order) : loc -> order :=
  fun l' => if Nat.eqb l' l then o else h l'.

(** [order["status"] = v]. *)
Definition with_status (o : order) (v : string) : order :=
  mk_order (o_id o) (o_customer_id o) (Some v) (o_total o) (o_items o)
           (o_processed_at o).

(** [order["processed_at"] = v]. *)
Definition with_processed_at (o : order) (v : Z) : order :=
  mk_order (o_id o) (o_customer_id o) (o_status o) (o_total o) (o_items o)
           (Some v).

(** [d.get(key, default)]. *)
Definition dict_get {A : Type} (field : option A) (default : A) : A :=
  match field with Some v => v | None => default end.

(** [order.get("status") != "pending"]. *)
Definition status_not_pending (o : order) : bool :=
  match o_status o with
  | Some s => negb (String.eqb s "pending")
  | None => true
  end.

Section Pipeline.

Context {X : Type} (ops : collaborators X).

(** *** Primitive actions *)

Definition read_order (l : loc) : M X order :=
  fun w => Ok (heap w l) w.

Definition set_status (l : loc) (v : string) : M X unit :=
  fun w => Ok tt (mk_world (ext w)
                           (heap_set (heap w) l (with_status (heap w l) v))
                           (trace w)).

Definition set_processed_at (l : loc) (v : Z) : M X unit :=
  fun w => Ok tt (mk_world (ext w)
                           (heap_set (heap w) l (with_processed_at (heap w l) v))
                           (trace w)).

(** [order["items"]]: raises [KeyError] when the key is absent. *)
Definition order_items (o : order) : M X (list item) :=
  match o_items o with
  | Some its => ret its
  | None => raise (KeyError "items")
  end.

(** [datetime.now()]. *)
Definition datetime_now : M X Z :=
  fun w => Ok (now ops (ext w)) w.

(** [db.query("SELECT * FROM customers WHERE id = %s", cid)]. *)
Definition query_customer (cid : Z) : M X (option customer) :=
  fun w => Ok (lookup_customer ops (ext w) cid)
              (record_event (EvQueryCustomer cid) w).

(** [db.query("SELECT quantity FROM inventory WHERE sku = %s", sku)]. *)
Definition query_inventory (sku : string) : M X (option stock) :=
  fun w => Ok (lookup_inventory ops (ext w) sku)
              (record_event (EvQueryInventory sku) w).

(** A write to a collaborator: the call is traced, and either the external
    state advances or the exception [e] is raised. *)
Definition external_write (ev : event) (e : exn) (step : X -> option X)
  : M X unit :=
  fun w =>
    match step (ext w) with
    | Some x' => Ok tt (mk_world x' (heap w) (trace w ++ [ev]))
    | None => Raise e (record_event ev w)
    end.

(** [db.execute("UPDATE inventory SET quantity = quantity - %s WHERE sku = %s",
    qty, sku)]. *)
Definition execute_update_inventory (qty : Z) (sku : string) : M X unit :=
  external_write (EvUpdateInventory qty sku) StoreError
                 (fun x => decrement_inventory ops x qty sku).

(** [db.execute("INSERT INTO processed_orders VALUES (%s)", json.dumps(order))]. *)
Definition execute_insert_processed (o : order) : M X unit :=
  external_write (EvInsertProcessed o) StoreError
                 (fun x => save_processed_order ops x o).

(** [requests.post(url, json=n)]. *)
Definition requests_post (url : string) (n : notification) : M X unit :=
  external_write (EvPost url n) RequestError (fun x => send ops x url n).

(** [with open(os.path.join(dir, "orders.log"), "a") as f: f.write(line)]. *)
Definition write_log (dir : string) (line : log_line) : M X unit :=
  external_write (EvLogWrite dir line) LogError
                 (fun x => append_line ops x dir line).

(** *** The inventory check (lines 28-32)

    The [for] loop over the items; the result is the SKU at which the loop
    hit [break], or [None] when it ran to its end (the [else] clause). *)
Fixpoint check_inventory (items : list item) : M X (option string) :=
  match items with
  | [] => ret None
  | it :: rest =>
      stock <- query_inventory (i_sku it) ;;
      match stock with
      | None => ret (Some (i_sku it))
      | Some s =>
          if (s_quantity s <? i_quantity it)%Z
          then ret (Some (i_sku it))
          else check_inventory rest
      end
  end.

(** *** The commit (lines 44-68) *)

(** Lines 46-48. *)
Fixpoint update_inventory (items : list item) : M X unit :=
  match items with
  | [] => ret tt
  | it :: rest =>
      execute_update_inventory (i_quantity it) (i_sku it) ;;
      update_inventory rest
  end.

Definition commit (cfg : config) (notify : bool) (l : loc)
           (items : list item) (total : Q) : M X unit :=
  update_inventory items ;;
  set_status l "processed" ;;
  t <- datetime_now ;;
  set_processed_at l t ;;
  o <- read_order l ;;
  execute_insert_processed o ;;
  (if notify
   then try_except_pass
          (requests_post (webhook_url cfg)
                         (mk_notification "order_processed" (o_id o) total))
   else ret tt) ;;
  t' <- datetime_now ;;
  write_log (log_dir cfg) (mk_log_line t' (o_id o) total).

(** *** The [else] clause of the inventory loop (lines 34-70) *)
Definition reconcile (cfg : config) (notify dry_run : bool) (l : loc)
           (o : order) : M X outcome :=
  items <- order_items o ;;
  let total := total_of cfg items in
  if total_mismatch total (dict_get (o_total o) 0)
  then ret (Failed (mk_failed l "total mismatch"))
  else
    (if dry_run then ret tt else commit cfg notify l items total) ;;
    ret (Processed (mk_processed (o_id o) total "processed")).

(** *** One iteration of the outer loop (lines 10-70) *)
Definition process_order (cfg : config) (notify dry_run : bool)
           (ref : option loc) : M X outcome :=
  match ref with
  | None => ret Skipped
  | Some l =>
      o <- read_order l ;;
      if status_not_pending o then ret Skipped
      else if Qleb (dict_get (o_total o) 0) 0
      then ret (Failed (mk_failed l "invalid total"))
      else
        customer <- query_customer (o_customer_id o) ;;
        match customer with
        | None => ret (Failed (mk_failed l "customer not found"))
        | Some c =>
            if String.eqb (c_status c) "banned"
            then ret (Failed (mk_failed l "customer banned"))
            else
              broke <- check_inventory (dict_get (o_items o) []) ;;
              match broke with
              | Some sku =>
                  ret (Failed (mk_failed l ("insufficient stock for " ++ sku)))
              | None => reconcile cfg notify dry_run l o
              end
        end
  end.

(** *** The batch (lines 6-9 and 72) *)
Fixpoint process_loop (cfg : config) (notify dry_run : bool)
         (orders : list (option loc))
         (results : list processed_entry) (failed : list failed_entry)
  : M X (list processed_entry * list failed_entry) :=
  match orders with
  | [] => ret (results, failed)
  | ref :: rest =>
      out <- process_order cfg notify dry_run ref ;;
      match out with
      | Skipped => process_loop cfg notify dry_run rest results failed
      | Failed e => process_loop cfg notify dry_run rest results (failed ++ [e])
      | Processed e =>
          process_loop cfg notify dry_run rest (results ++ [e]) failed
      end
  end.

Definition process_orders (orders : list (option loc)) (cfg : config)
           (notify dry_run : bool) : M X batch_result :=
  lists <- process_loop cfg notify dry_run orders [] [] ;;
  let results := fst lists in
  let failed := snd lists in
  ret (mk_batch results failed
                (mk_summary (length results) (length failed))).

End Pipeline.

Arguments process_order {X} ops cfg notify dry_run ref _.
Arguments process_loop {X} ops cfg notify dry_run orders results failed _.
Arguments process_orders {X} ops orders cfg notify dry_run _.

(** ** Vocabulary of the statements *)

(** The world a computation leaves behind, returned or raised. *)
Definition world_of {X A : Type} (r : result X A) : world X :=
  match r with
  | Ok _ w => w
  | Raise _ w => w
  end.

(** The value a computation returns, if it returns. *)
Definition value_of {X A : Type} (r : result X A) : option A :=
  match r with
  | Ok a _ => Some a
  | Raise _ _ => None
  end.

(** The exception a computation raises, if it raises. *)
Definition exception_of {X A : Type} (r : result X A) : option exn :=
  match r with
  | Ok _ _ => None
  | Raise e _ => Some e
  end.

(** The same store and orders, with more calls traced. *)
Definition add_events {X : Type} (evs : list event) (w : world X) : world X :=
  mk_world (ext w) (heap w) (trace w ++ evs).

(** The item can be served from the stock the store reports. *)
Definition in_stock {X : Type} (ops : collaborators X) (x : X) (it : item)
  : bool :=
  match lookup_inventory ops x (i_sku it) with
  | None => false
  | Some s => negb (s_quantity s <? i_quantity it)%Z
  end.

Definition inventory_queries (items : list item) : list event :=
  map (fun it => EvQueryInventory (i_sku it)) items.

(** The customer exists and is not banned. *)
Definition customer_ok {X : Type} (ops : collaborators X) (x : X) (o : order)
  : bool :=
  match lookup_customer ops x (o_customer_id o) with
  | None => false
  | Some c => negb (String.eqb (c_status c) "banned")
  end.

(** The order after lines 51-52. *)
Definition mark_processed (o : order) (t : Z) : order :=
  with_processed_at (with_status o "processed") t.

(** The call changes a collaborator (anything but a lookup). *)
Definition is_write (ev : event) : bool :=
  match ev with
  | EvQueryCustomer _ | EvQueryInventory _ => false
  | _ => true
  end.


Fixpoint processed_of (outs : list outcome) : list processed_entry :=
  match outs with
  | [] => []
  | Processed e :: rest => e :: processed_of rest
  | _ :: rest => processed_of rest
  end.

Fixpoint failed_of (outs : list outcome) : list failed_entry :=
  match outs with
  | [] => []
  | Failed e :: rest => e :: failed_of rest
  | _ :: rest => failed_of rest
  end.

Definition is_skipped (out : outcome) : bool :=
  match out with
  | Skipped => true
  | _ => false
  end.

(** The outcomes of the iterations of the outer loop, one per input
    position. *)
Fixpoint outcomes {X : Type} (ops : collaborators X) (cfg : config)
         (notify dry_run : bool) (orders : list (option loc))
  : M X (list outcome) :=
  match orders with
  | [] => ret []
  | ref :: rest =>
      out <- process_order ops cfg notify dry_run ref ;;
      outs <- outcomes ops cfg notify dry_run rest ;;
      ret (out :: outs)
  end.

Section Vocabulary.

Context {X : Type} (ops : collaborators X).

(** The items the inventory loop looks up: all of them up to and including
    the first one that cannot be served. *)
Fixpoint checked (x : X) (items : list item) : list item :=
  match items with
  | [] => []
  | it :: rest => if in_stock ops x it then it :: checked x rest else [it]
  end.

(** The first item, in listed order, that cannot be served. *)
Definition first_short (x : X) (items : list item) : option item :=
  find (fun it => negb (in_stock ops x it)) items.

Definition update_events (items : list item) : list event :=
  map (fun it => EvUpdateInventory (i_quantity it) (i_sku it)) items.

(** The store after the decrements of lines 46-48, when all succeed. *)
Fixpoint decrement_all (x : X) (items : list item) : option X :=
  match items with
  | [] => Some x
  | it :: rest =>
      match decrement_inventory ops x (i_quantity it) (i_sku it) with
      | Some x' => decrement_all x' rest
      | None => None
      end
  end.

(** The heap after lines 51-52 for the order at [l]. *)
Definition heap_mark (h : loc -> order) (l : loc) (t : Z) : loc -> order :=
  heap_set (heap_set h l (with_status (h l) "processed")) l
           (with_processed_at
              (heap_set h l (with_status (h l) "processed") l) t).

(** The store after the notification step of lines 56-64. *)
Definition after_notify (cfg : config) (notify : bool) (x : X)
           (n : notification) : X :=
  if notify
  then match send ops x (webhook_url cfg) n with
       | Some x' => x'
       | None => x
       end
  else x.

Definition notify_events (cfg : config) (notify : bool) (n : notification)
  : list event :=
  if notify then [EvPost (webhook_url cfg) n] else [].

(** The calls of a commit that runs to its end; [o] is the order as it is
    persisted and [t'] the time of the log line. *)
Definition commit_events (cfg : config) (notify : bool) (o : order)
           (items : list item) (total : Q) (t' : Z) : list event :=
  update_events items
  ++ [EvInsertProcessed o]
  ++ notify_events cfg notify
       (mk_notification "order_processed" (o_id o) total)
  ++ [EvLogWrite (log_dir cfg) (mk_log_line t' (o_id o) total)].

(** Where the validation stages of one iteration end, as a function of the
    store and of the order alone. *)
Inductive verdict : Type :=
| VSkip
| VFail (reason : string)
| VKeyError
| VCommit (items : list item) (total : Q).

Definition verdict_of (cfg : config) (x : X) (o : order) : verdict :=
  if status_not_pending o then VSkip
  else if Qleb (dict_get (o_total o) 0) 0 then VFail "invalid total"
  else
    match lookup_customer ops x (o_customer_id o) with
    | None => VFail "customer not found"
    | Some c =>
        if String.eqb (c_status c) "banned" then VFail "customer banned"
        else
          match first_short x (dict_get (o_items o) []) with
          | Some it => VFail ("insufficient stock for " ++ i_sku it)
          | None =>
              match o_items o with
              | None => VKeyError
              | Some its =>
                  if total_mismatch (total_of cfg its) (dict_get (o_total o) 0)
                  then VFail "total mismatch"
                  else VCommit its (total_of cfg its)
              end
          end
    end.

(** The lookups the validation stages make. *)
Definition verdict_events (x : X) (o : order) : list event :=
  if status_not_pending o then []
  else if Qleb (dict_get (o_total o) 0) 0 then []
  else
    EvQueryCustomer (o_customer_id o)
    :: match lookup_customer ops x (o_customer_id o) with
       | None => []
       | Some c =>
           if String.eqb (c_status c) "banned" then []
           else inventory_queries (checked x (dict_get (o_items o) []))
       end.

End Vocabulary.

(** An outcome is about the order at its input position: a failure entry
    holds that reference, a processed entry that order's identifier. *)
Definition records (h : loc -> order) (ref : option loc) (out : outcome)
  : Prop :=
  match out with
  | Skipped => True
  | Failed e => ref = Some (fe_order e)
  | Processed e => exists l, ref = Some l /\ pe_order_id e = o_id (h l)
  end.

(** *** Kinds of calls *)

Definition is_update (ev : event) : bool :=
  match ev with EvUpdateInventory _ _ => true | _ => false end.

Definition is_insert (ev : event) : bool :=
  match ev with EvInsertProcessed _ => true | _ => false end.

Definition is_post (ev : event) : bool :=
  match ev with EvPost _ _ => true | _ => false end.

Definition is_log_write (ev : event) : bool :=
  match ev with EvLogWrite _ _ => true | _ => false end.

(** The reasons lines 15, 21, 24, 31 and 41 can write. *)
Definition known_reason (reason : string) : Prop :=
  reason = "invalid total"%string \/
  reason = "customer not found"%string \/
  reason = "customer banned"%string \/
  (exists sku, reason = ("insufficient stock for " ++ sku)%string) \/
  reason = "total mismatch"%string.

(** The orders inserted, the lines logged and the notifications posted by
    a sequence of calls, in call order. *)
Definition inserted (evs : list event) : list order :=
  flat_map (fun ev => match ev with EvInsertProcessed o => [o] | _ => [] end)
           evs.

Definition logged (evs : list event) : list log_line :=
  flat_map (fun ev => match ev with EvLogWrite _ ln => [ln] | _ => [] end) evs.

Definition posted (evs : list event) : list notification :=
  flat_map (fun ev => match ev with EvPost _ n => [n] | _ => [] end) evs.

(** The identifier and total a processed entry, a log line and a
    notification carry. *)
Definition entry_key (e : processed_entry) : Z * Q :=
  (pe_order_id e, pe_total e).

Definition line_key (ln : log_line) : Z * Q := (ll_order_id ln, ll_total ln).

Definition notification_key (n : notification) : Z * Q :=
  (n_order_id n, n_total n).


(** The skip filter of lines 10-13, on the orders as they are when the
    iteration starts. *)
Definition skip_filter (h : loc -> order) (ref : option loc) : bool :=
  match ref with
  | None => true
  | Some l => status_not_pending (h l)
  end.

(** ** An in-memory store, for concrete runs *)

Module Mem.

Record state : Type := mk_state {
  customers : list (Z * customer);
  inventory : list (string * Z);
  processed_orders : list order;
  posts : list (string * notification);
  log : list (string * log_line);
  clock : Z;
  db_writable : bool;
  net_up : bool;
  log_writable : bool
}.

Definition find_customer (s : state) (cid : Z) : option customer :=
  option_map snd (find (fun row => Z.eqb (fst row) cid) (customers s)).

Definition find_stock (s : state) (sku : string) : option stock :=
  option_map (fun row => mk_stock (snd row))
             (find (fun row => String.eqb (fst row) sku) (inventory s)).

Definition decrement (s : state) (qty : Z) (sku : string) : option state :=
  if db_writable s
  then Some (mk_state (customers s)
                      (map (fun row => if String.eqb (fst row) sku
                                       then (fst row, (snd row - qty)%Z)
                                       else row)
                           (inventory s))
                      (processed_orders s) (posts s) (log s) (clock s)
                      (db_writable s) (net_up s) (log_writable s))
  else None.

Definition save (s : state) (o : order) : option state :=
  if db_writable s
  then Some (mk_state (customers s) (inventory s) (processed_orders s ++ [o])
                      (posts s) (log s) (clock s)
                      (db_writable s) (net_up s) (log_writable s))
  else None.

Definition post (s : state) (url : string) (n : notification) : option state :=
  if net_up s
  then Some (mk_state (customers s) (inventory s) (processed_orders s)
                      (posts s ++ [(url, n)]) (log s) (clock s)
                      (db_writable s) (net_up s) (log_writable s))
  else None.

Definition append (s : state) (dir : string) (line : log_line) : option state :=
  if log_writable s
  then Some (mk_state (customers s) (inventory s) (processed_orders s)
                      (posts s) (log s ++ [(dir, line)]) (clock s)
                      (db_writable s) (net_up s) (log_writable s))
  else None.

(** A store whose inventory table refuses a negative quantity (a CHECK
    constraint): the decrement errors instead of going below zero. *)
Definition decrement_checked (s : state) (qty : Z) (sku : string)
  : option state :=
  match find_stock s sku with
  | Some row => if (s_quantity row <? qty)%Z then None else decrement s qty sku
  | None => decrement s qty sku
  end.

Definition ops : collaborators state :=
  mk_collaborators state find_customer find_stock decrement save post append
                   clock.

Definition ops_checked : collaborators state :=
  mk_collaborators state find_customer find_stock decrement_checked save post
                   append clock.

(** The configuration and the orders of the end-to-end examples. *)
Definition cfg : config :=
  mk_config (1 # 10) 100 5 "http://hooks.example/orders" "/var/log/shop".

Definition order_a : order :=
  mk_order 1 7 (Some "pending"%string) (Some 115)
           (Some [mk_item "A" 50 2]) None.

Definition order_b : order :=
  mk_order 2 7 (Some "pending"%string) (Some 126)
           (Some [mk_item "A" 60 2]) None.

(** One unit of "A" at 10, tax 1, shipping 5: declared total 16. *)
Definition order_c (id : Z) : order :=
  mk_order id 7 (Some "pending"%string) (Some 16)
           (Some [mk_item "A" 10 1]) None.

Definition order_shipped : order :=
  mk_order 9 7 (Some "shipped"%string) (Some 16)
           (Some [mk_item "A" 10 1]) None.

Definition order_no_total : order :=
  mk_order 5 7 (Some "pending"%string) None (Some [mk_item "A" 10 1]) None.

(** "B" is not stocked. *)
Definition order_short : order :=
  mk_order 6 7 (Some "pending"%string) (Some 27)
           (Some [mk_item "A" 10 1; mk_item "B" 10 1; mk_item "A" 10 1]) None.


Definition heap_of (os : list order) : loc -> order :=
  fun l => nth l os order_shipped.

Definition store (stock_a : Z) (db_ok net_ok log_ok : bool) : state :=
  mk_state [(7%Z, mk_customer "active"); (8%Z, mk_customer "banned")]
           [("A"%string, stock_a)] [] [] [] 1000 db_ok net_ok log_ok.

Definition start (os : list order) (s : state) : world state :=
  mk_world s (heap_of os) [].

(** One order for two units of "A", five in stock. *)
Definition world_a : world state := start [order_a] (store 5 true true true).

Definition world_short : world state :=
  start [order_short] (store 5 true true true).

Definition world_no_total : world state :=
  start [order_no_total] (store 5 true true true).


(** A batch with a null reference, a shipped order, a good order and an
    order whose declared total is wrong. *)
Definition world_mixed : world state :=
  start [order_shipped; order_a; order_b] (store 5 true true true).

Definition batch_mixed : list (option loc) :=
  [None; Some 0%nat; Some 1%nat; Some 2%nat].

(** One good order; the webhook is down. *)
Definition world_net_down : world state :=
  start [order_c 1] (store 1 true false true).

(** One good order; the database refuses writes. *)
Definition world_db_down : world state :=
  start [order_c 1] (store 1 false true true).

(** Two good orders for the last unit of "A". *)
Definition world_last_unit : world state :=
  start [order_c 1; order_c 2] (store 1 true true true).

(** A good order and a mispriced one; the database refuses writes. *)
Definition world_db_down_mixed : world state :=
  start [order_c 1; order_b] (store 5 false true true).

(** Orders of an unknown customer, of a banned customer, and without an
    item list. *)
Definition order_unknown_customer : order :=
  mk_order 11 99 (Some "pending"%string) (Some 16)
           (Some [mk_item "A" 10 1]) None.

Definition order_banned : order :=
  mk_order 12 8 (Some "pending"%string) (Some 16)
           (Some [mk_item "A" 10 1]) None.

Definition order_no_items : order :=
  mk_order 13 7 (Some "pending"%string) (Some 5) None None.

(** Two lines of one unit of "A": 20 + 2 + 5. *)
Definition order_twice_a : order :=
  mk_order 14 7 (Some "pending"%string) (Some 27)
           (Some [mk_item "A" 10 1; mk_item "A" 10 1]) None.

Definition world_customers : world state :=
  start [order_unknown_customer; order_banned; order_no_items]
        (store 5 true true true).

(** One good order; the log cannot be written. *)
Definition world_log_down : world state :=
  start [order_c 1] (store 1 true true false).

(** One unit of "A" in stock and an order with two lines of it. *)
Definition world_twice_a : world state :=
  start [order_twice_a] (store 1 true true true).





End Mem.
(** ** Supporting lemmas *)

Section Properties.

Context {X : Type} (ops : collaborators X).

Implicit Types (w : world X) (l : loc) (o : order) (cfg : config)
         (its : list item).

(** *** Worlds and traces *)

Lemma add_events_nil w : add_events [] w = w.
Proof. destruct w; unfold add_events; simpl. now rewrite app_nil_r. Qed.

Lemma add_events_app evs evs' w :
  add_events evs' (add_events evs w) = add_events (evs ++ evs') w.
Proof. unfold add_events; simpl. now rewrite app_assoc. Qed.

Lemma value_of_ok {A : Type} (r : result X A) (a : A) :
  value_of r = Some a -> r = Ok a (world_of r).
Proof. destruct r; simpl; [intros [= ->]; reflexivity | discriminate]. Qed.

Lemma record_event_add ev w : record_event ev w = add_events [ev] w.
Proof. reflexivity. Qed.

(** *** Decimal comparisons *)


Lemma Qgtb_false a b : Qgtb a b = false <-> a <= b.
Proof.
  unfold Qgtb. rewrite Qle_alt.
  destruct (a ?= b); split; intros H; congruence.
Qed.

Lemma Qleb_false a b : Qleb a b = false <-> b < a.
Proof.
  unfold Qleb. rewrite <- not_true_iff_false, Qle_bool_iff.
  split; [apply Qnot_le_lt | apply Qlt_not_le].
Qed.

Lemma status_not_pending_false o :
  status_not_pending o = false <-> o_status o = Some "pending"%string.
Proof.
  unfold status_not_pending. destruct (o_status o) as [s|].
  - rewrite negb_false_iff, String.eqb_eq. split; congruence.
  - split; discriminate.
Qed.

Lemma status_not_pending_true o :
  status_not_pending o = true <-> o_status o <> Some "pending"%string.
Proof.
  rewrite <- status_not_pending_false.
  destruct (status_not_pending o); split; congruence.
Qed.

(** *** The inventory loop *)

Lemma check_inventory_run its w :
  check_inventory ops its w =
  Ok (option_map i_sku (first_short ops (ext w) its))
     (add_events (inventory_queries (checked ops (ext w) its)) w).
Proof.
  revert w. induction its as [|it rest IH]; intros w; simpl.
  - unfold ret. now rewrite add_events_nil.
  - unfold bind, query_inventory, in_stock.
    destruct (lookup_inventory ops (ext w) (i_sku it)) as [s|]; simpl;
      [destruct (s_quantity s <? i_quantity it)%Z; simpl|]; try reflexivity.
    rewrite IH, record_event_add, add_events_app. reflexivity.
Qed.

Lemma first_short_none x its :
  forallb (in_stock ops x) its = true -> first_short ops x its = None.
Proof.
  induction its as [|it rest IH]; simpl; intros H; [reflexivity|].
  apply andb_prop in H. destruct H as [H1 H2]. rewrite H1. simpl. auto.
Qed.

Lemma checked_all x its :
  forallb (in_stock ops x) its = true -> checked ops x its = its.
Proof.
  induction its as [|it rest IH]; simpl; intros H; [reflexivity|].
  apply andb_prop in H. destruct H as [H1 H2]. rewrite H1. f_equal. auto.
Qed.

Lemma first_short_at x pre it post :
  forallb (in_stock ops x) pre = true -> in_stock ops x it = false ->
  first_short ops x (pre ++ it :: post) = Some it.
Proof.
  induction pre as [|p pre IH]; simpl; intros H Hit.
  - now rewrite Hit.
  - apply andb_prop in H. destruct H as [H1 H2]. rewrite H1. simpl. auto.
Qed.

Lemma checked_at x pre it post :
  forallb (in_stock ops x) pre = true -> in_stock ops x it = false ->
  checked ops x (pre ++ it :: post) = pre ++ [it].
Proof.
  induction pre as [|p pre IH]; simpl; intros H Hit.
  - now rewrite Hit.
  - apply andb_prop in H. destruct H as [H1 H2]. rewrite H1. f_equal. auto.
Qed.

(** *** One iteration, by verdict *)

Lemma process_order_verdict cfg notify dry l w :
  process_order ops cfg notify dry (Some l) w =
  match verdict_of ops cfg (ext w) (heap w l) with
  | VSkip => Ok Skipped w
  | VFail reason =>
      Ok (Failed (mk_failed l reason))
         (add_events (verdict_events ops (ext w) (heap w l)) w)
  | VKeyError =>
      Raise (KeyError "items")
            (add_events (verdict_events ops (ext w) (heap w l)) w)
  | VCommit its total =>
      ((if dry then ret tt else commit ops cfg notify l its total) ;;
       ret (Processed (mk_processed (o_id (heap w l)) total "processed")))
        (add_events (verdict_events ops (ext w) (heap w l)) w)
  end.
Proof.
  unfold process_order, verdict_of, verdict_events, bind at 1, read_order.
  destruct (status_not_pending (heap w l)); [reflexivity|].
  destruct (Qleb (dict_get (o_total (heap w l)) 0) 0).
  { unfold ret. now rewrite add_events_nil. }
  unfold bind at 1, query_customer.
  destruct (lookup_customer ops (ext w) (o_customer_id (heap w l))) as [c|];
    [|reflexivity].
  destruct (String.eqb (c_status c) "banned"); [reflexivity|].
  unfold bind at 1. rewrite check_inventory_run. simpl.
  rewrite record_event_add, add_events_app. simpl.
  destruct (first_short ops (ext w) (dict_get (o_items (heap w l)) []));
    [reflexivity|]. simpl.
  unfold reconcile, order_items.
  destruct (o_items (heap w l)) as [its|]; [|reflexivity].
  unfold bind at 1, ret at 1.
  destruct (total_mismatch (total_of cfg its) (dict_get (o_total (heap w l)) 0));
    reflexivity.
Qed.

Lemma verdict_events_no_write x o :
  Forall (fun ev => is_write ev = false) (verdict_events ops x o).
Proof.
  unfold verdict_events.
  destruct (status_not_pending o); [constructor|].
  destruct (Qleb _ 0); [constructor|].
  constructor; [reflexivity|].
  destruct (lookup_customer ops x (o_customer_id o)) as [c|]; [|constructor].
  destruct (String.eqb (c_status c) "banned"); [constructor|].
  unfold inventory_queries. apply Forall_forall. intros ev Hin.
  apply in_map_iff in Hin. destruct Hin as (it & <- & _). reflexivity.
Qed.


(** *** The commit *)

Lemma heap_mark_same h l t : heap_mark h l t l = mark_processed (h l) t.
Proof.
  unfold heap_mark, heap_set, mark_processed. now rewrite Nat.eqb_refl.
Qed.

Lemma heap_mark_other h l t l' : l' <> l -> heap_mark h l t l' = h l'.
Proof.
  intros H. unfold heap_mark, heap_set.
  apply Nat.eqb_neq in H. now rewrite H.
Qed.

Lemma update_inventory_ok its : forall w x1,
  decrement_all ops (ext w) its = Some x1 ->
  update_inventory ops its w =
  Ok tt (mk_world x1 (heap w) (trace w ++ update_events its)).
Proof.
  induction its as [|it rest IH]; simpl; intros w x1 H.
  - injection H as <-. unfold ret. destruct w; simpl. now rewrite app_nil_r.
  - unfold bind, execute_update_inventory, external_write.
    destruct (decrement_inventory ops (ext w) (i_quantity it) (i_sku it))
      as [x'|]; [|discriminate].
    rewrite (IH (mk_world x' (heap w)
                   (trace w ++ [EvUpdateInventory (i_quantity it) (i_sku it)]))
                x1 H).
    simpl. now rewrite <- app_assoc.
Qed.

Lemma update_inventory_fail its : forall w,
  decrement_all ops (ext w) its = None ->
  exists w', update_inventory ops its w = Raise StoreError w' /\
             heap w' = heap w.
Proof.
  induction its as [|it rest IH]; simpl; intros w H; [discriminate|].
  unfold bind, execute_update_inventory, external_write.
  destruct (decrement_inventory ops (ext w) (i_quantity it) (i_sku it))
    as [x'|].
  - destruct (IH (mk_world x' (heap w)
                    (trace w ++ [EvUpdateInventory (i_quantity it) (i_sku it)]))
                 H) as (w' & Hr & Hh).
    exists w'. split; assumption.
  - eexists. split; reflexivity.
Qed.

(** The steps of the commit after the decrements, unfolded. *)
Ltac commit_tail :=
  unfold set_status, datetime_now, set_processed_at, read_order,
    execute_insert_processed, try_except_pass, requests_post, write_log,
    external_write, ret; simpl.

Lemma commit_ok cfg notify l its total w x1 x2 x4 :
  let o := mark_processed (heap w l) (now ops x1) in
  let n := mk_notification "order_processed" (o_id o) total in
  let x3 := after_notify ops cfg notify x2 n in
  decrement_all ops (ext w) its = Some x1 ->
  save_processed_order ops x1 o = Some x2 ->
  append_line ops x3 (log_dir cfg) (mk_log_line (now ops x3) (o_id o) total)
  = Some x4 ->
  commit ops cfg notify l its total w =
  Ok tt (mk_world x4 (heap_mark (heap w) l (now ops x1))
                  (trace w ++ commit_events cfg notify o its total
                                            (now ops x3))).
Proof.
  intros o n x3 H1 H2 H4.
  unfold commit, bind. rewrite (update_inventory_ok _ _ _ H1).
  unfold set_status, datetime_now, set_processed_at, read_order. simpl.
  fold (heap_mark (heap w) l (now ops x1)).
  rewrite heap_mark_same. fold o.
  unfold execute_insert_processed, external_write. simpl. rewrite H2.
  unfold commit_events, notify_events.
  subst x3 n. unfold after_notify in *.
  change (o_id o) with (o_id (heap w l)) in *.
  destruct notify.
  - unfold try_except_pass, requests_post, external_write. simpl.
    destruct (send ops x2 (webhook_url cfg) _) as [x'|]; simpl;
      unfold write_log, external_write; simpl; rewrite H4;
      now rewrite <- !app_assoc.
  - unfold ret, write_log, external_write. simpl. rewrite H4.
    now rewrite <- !app_assoc.
Qed.

(** Whatever happens in the commit, the heap is either untouched (a
    decrement failed) or marked at [l] and nowhere else. *)
Lemma commit_heap cfg notify l its total w :
  let r := commit ops cfg notify l its total w in
  (decrement_all ops (ext w) its = None /\ heap (world_of r) = heap w /\
   exists w', r = Raise StoreError w') \/
  (exists x1, decrement_all ops (ext w) its = Some x1 /\
              heap (world_of r) = heap_mark (heap w) l (now ops x1)).
Proof.
  intros r. subst r.
  destruct (decrement_all ops (ext w) its) as [x1|] eqn:Hd.
  - right. exists x1. split; [reflexivity|].
    unfold commit, bind. rewrite (update_inventory_ok _ _ _ Hd).
    commit_tail. fold (heap_mark (heap w) l (now ops x1)).
    destruct (save_processed_order ops x1 _) as [x2|]; [|reflexivity].
    destruct notify; simpl.
    + destruct (send ops x2 _ _) as [x'|]; simpl;
        destruct (append_line ops _ _ _); reflexivity.
    + destruct (append_line ops _ _ _); reflexivity.
  - left. split; [reflexivity|].
    destruct (update_inventory_fail _ _ Hd) as (w' & Hr & Hh).
    unfold commit, bind. rewrite Hr. simpl. split; [assumption|].
    now exists w'.
Qed.

(** The commit raises only what the store and the log raise: an error of
    the webhook call never leaves it. *)
Lemma commit_raise cfg notify l its total w e w' :
  commit ops cfg notify l its total w = Raise e w' ->
  e = StoreError \/ e = LogError.
Proof.
  destruct (decrement_all ops (ext w) its) as [x1|] eqn:Hd.
  - unfold commit, bind. rewrite (update_inventory_ok _ _ _ Hd).
    commit_tail.
    destruct (save_processed_order ops x1 _) as [x2|];
      [|intros [= <- _]; now left].
    destruct notify; simpl.
    + destruct (send ops x2 _ _) as [x'|]; simpl;
        (destruct (append_line ops _ _ _);
         [discriminate | intros [= <- _]; now right]).
    + destruct (append_line ops _ _ _);
        [discriminate | intros [= <- _]; now right].
  - destruct (update_inventory_fail _ _ Hd) as (w1 & Hr & _).
    unfold commit, bind. rewrite Hr. intros [= <- _]. now left.
Qed.

Lemma world_of_then {A B : Type} (m : M X A) (b : B) w :
  world_of ((m ;; ret b) w) = world_of (m w).
Proof. unfold bind, ret. destruct (m w); reflexivity. Qed.

(** *** One iteration: what it returns, raises and leaves behind *)

Lemma process_order_ok_inv cfg notify dry ref w out w' :
  process_order ops cfg notify dry ref w = Ok out w' ->
  match out with
  | Skipped => w' = w
  | Failed e =>
      exists l, ref = Some l /\ fe_order e = l /\
                ext w' = ext w /\ heap w' = heap w
  | Processed e =>
      exists l, ref = Some l /\ pe_order_id e = o_id (heap w l) /\
                status_not_pending (heap w l) = false
  end.
Proof.
  destruct ref as [l|]; [|intros [= <- <-]; reflexivity].
  rewrite process_order_verdict.
  destruct (verdict_of ops cfg (ext w) (heap w l)) as [|reason| |its total]
    eqn:Hv.
  - intros [= <- <-]. reflexivity.
  - intros [= <- <-]. exists l. repeat split; reflexivity.
  - discriminate.
  - assert (Hp : status_not_pending (heap w l) = false).
    { unfold verdict_of in Hv.
      destruct (status_not_pending (heap w l)); [discriminate|reflexivity]. }
    unfold bind, ret. destruct dry.
    + intros [= <- <-]. exists l. repeat split; auto.
    + destruct (commit ops cfg notify l its total _) as [u w1|];
        [|discriminate].
      intros [= <- <-]. exists l. repeat split; auto.
Qed.

Lemma process_order_heap cfg notify dry ref w l' :
  let r := process_order ops cfg notify dry ref w in
  heap (world_of r) l' = heap w l' \/
  (dry = false /\ ref = Some l' /\
   (exists its total,
      verdict_of ops cfg (ext w) (heap w l') = VCommit its total) /\
   exists t, heap (world_of r) l' = mark_processed (heap w l') t).
Proof.
  intros r. subst r.
  destruct ref as [l|]; [|left; reflexivity].
  rewrite process_order_verdict.
  destruct (verdict_of ops cfg (ext w) (heap w l)) as [|reason| |its total]
    eqn:Hv; try (left; reflexivity).
  rewrite world_of_then.
  destruct dry; [left; reflexivity|].
  set (w1 := add_events _ w).
  destruct (commit_heap cfg notify l its total w1) as [(_ & Hh & _)|(x1 & _ & Hh)].
  - left. now rewrite Hh.
  - destruct (Nat.eq_dec l' l) as [->|Hne].
    + right. split; [reflexivity|]. split; [reflexivity|].
      split; [now exists its, total|].
      exists (now ops x1). rewrite Hh. apply heap_mark_same.
    + left. rewrite Hh. now apply heap_mark_other.
Qed.

Lemma process_order_raise cfg notify dry ref w e w' :
  process_order ops cfg notify dry ref w = Raise e w' ->
  (e = KeyError "items" /\
   exists l, ref = Some l /\ o_items (heap w l) = None) \/
  (dry = false /\ (e = StoreError \/ e = LogError)).
Proof.
  destruct ref as [l|]; [|discriminate].
  rewrite process_order_verdict.
  destruct (verdict_of ops cfg (ext w) (heap w l)) as [|reason| |its total]
    eqn:Hv; try discriminate.
  - intros [= <- _]. left. split; [reflexivity|]. exists l.
    split; [reflexivity|]. unfold verdict_of in Hv.
    destruct (status_not_pending _); [discriminate|].
    destruct (Qleb _ 0); [discriminate|].
    destruct (lookup_customer _ _ _) as [c|]; [|discriminate].
    destruct (String.eqb _ _); [discriminate|].
    destruct (first_short _ _ _); [discriminate|].
    destruct (o_items (heap w l)); [|reflexivity].
    destruct (total_mismatch _ _); discriminate.
  - destruct dry; [discriminate|].
    unfold bind. set (w1 := add_events _ w).
    destruct (commit ops cfg notify l its total w1) as [u w2|e2 w2] eqn:Hc;
      [discriminate|].
    intros [= <- _]. right. split; [reflexivity|].
    eapply commit_raise; eassumption.
Qed.

(** A dry run of one iteration only reads. *)
Lemma process_order_dry cfg notify ref w :
  exists evs,
    world_of (process_order ops cfg notify true ref w) = add_events evs w /\
    Forall (fun ev => is_write ev = false) evs.
Proof.
  destruct ref as [l|].
  - rewrite process_order_verdict.
    exists (match verdict_of ops cfg (ext w) (heap w l) with
            | VSkip => []
            | _ => verdict_events ops (ext w) (heap w l)
            end).
    destruct (verdict_of ops cfg (ext w) (heap w l));
      simpl; try rewrite add_events_nil;
      (split; [reflexivity|]); try apply verdict_events_no_write.
    constructor.
  - exists []. simpl. rewrite add_events_nil. split; [reflexivity|constructor].
Qed.


Lemma mark_processed_not_pending o t :
  status_not_pending (mark_processed o t) = true.
Proof. reflexivity. Qed.

Lemma verdict_commit_pending cfg x o its total :
  verdict_of ops cfg x o = VCommit its total ->
  status_not_pending o = false.
Proof.
  unfold verdict_of. destruct (status_not_pending o); [discriminate|reflexivity].
Qed.

(** An order that is not pending stays so. *)
Lemma process_order_keeps_skipped cfg notify dry ref w l' :
  status_not_pending (heap w l') = true ->
  heap (world_of (process_order ops cfg notify dry ref w)) l' = heap w l'.
Proof.
  intros Hs.
  destruct (process_order_heap cfg notify dry ref w l')
    as [H|(_ & _ & (its & total & Hv) & _)]; [exact H|].
  apply verdict_commit_pending in Hv. congruence.
Qed.

(** Identifiers are never rewritten. *)
Lemma process_order_keeps_id cfg notify dry ref w l' :
  o_id (heap (world_of (process_order ops cfg notify dry ref w)) l')
  = o_id (heap w l').
Proof.
  destruct (process_order_heap cfg notify dry ref w l')
    as [H|(_ & _ & _ & t & H)]; simpl in H; rewrite H; reflexivity.
Qed.

Lemma process_order_not_pending cfg notify dry l w :
  status_not_pending (heap w l) = true ->
  process_order ops cfg notify dry (Some l) w = Ok Skipped w.
Proof.
  intros H. unfold process_order, bind, read_order. now rewrite H.
Qed.

(** *** The loop *)

Lemma process_loop_cons cfg notify dry ref rest results failed w :
  process_loop ops cfg notify dry (ref :: rest) results failed w =
  match process_order ops cfg notify dry ref w with
  | Ok Skipped w1 => process_loop ops cfg notify dry rest results failed w1
  | Ok (Failed e) w1 =>
      process_loop ops cfg notify dry rest results (failed ++ [e]) w1
  | Ok (Processed e) w1 =>
      process_loop ops cfg notify dry rest (results ++ [e]) failed w1
  | Raise e w1 => Raise e w1
  end.
Proof.
  simpl. unfold bind.
  destruct (process_order ops cfg notify dry ref w) as [out w1|];
    [destruct out|]; reflexivity.
Qed.

Lemma process_loop_outcomes cfg notify dry orders : forall results failed w,
  process_loop ops cfg notify dry orders results failed w =
  (outs <- outcomes ops cfg notify dry orders ;;
   ret (results ++ processed_of outs, failed ++ failed_of outs)) w.
Proof.
  induction orders as [|ref rest IH]; intros results failed w; simpl.
  - unfold bind, ret. simpl. now rewrite !app_nil_r.
  - unfold bind.
    destruct (process_order ops cfg notify dry ref w) as [out w1|e w1];
      [|reflexivity].
    destruct out as [|e|e]; rewrite IH; unfold bind, ret;
      destruct (outcomes ops cfg notify dry rest w1) as [outs w2|];
      simpl; try reflexivity; now rewrite <- app_assoc.
Qed.

Lemma process_orders_outcomes cfg notify dry orders w :
  process_orders ops orders cfg notify dry w =
  (outs <- outcomes ops cfg notify dry orders ;;
   ret (mk_batch (processed_of outs) (failed_of outs)
                 (mk_summary (length (processed_of outs))
                             (length (failed_of outs))))) w.
Proof.
  unfold process_orders. unfold bind at 1. rewrite process_loop_outcomes.
  unfold bind, ret.
  destruct (outcomes ops cfg notify dry orders w); reflexivity.
Qed.

Lemma records_ext h h' ref out :
  (forall l, o_id (h' l) = o_id (h l)) ->
  records h' ref out -> records h ref out.
Proof.
  intros Hid. destruct out as [|e|e]; simpl; auto.
  intros (l & -> & He). exists l. split; [reflexivity|]. now rewrite <- Hid.
Qed.

Lemma outcomes_records cfg notify dry orders : forall w outs w',
  outcomes ops cfg notify dry orders w = Ok outs w' ->
  Forall2 (records (heap w)) orders outs.
Proof.
  induction orders as [|ref rest IH]; intros w outs w'; simpl.
  - intros [= <- <-]. constructor.
  - unfold bind, ret.
    destruct (process_order ops cfg notify dry ref w) as [out w1|] eqn:Hp;
      [|discriminate].
    destruct (outcomes ops cfg notify dry rest w1) as [outs1 w2|] eqn:Ho;
      [|discriminate].
    intros [= <- <-]. constructor.
    + pose proof (process_order_ok_inv _ _ _ _ _ _ _ Hp) as Hinv.
      destruct out as [|e|e]; simpl; auto.
      * destruct Hinv as (l & -> & <- & _). reflexivity.
      * destruct Hinv as (l & -> & He & _). now exists l.
    + apply IH in Ho.
      eapply Forall2_impl; [|exact Ho]. intros ref' out'.
      apply records_ext. intros l.
      pose proof (process_order_keeps_id cfg notify dry ref w l) as Hid.
      rewrite Hp in Hid. exact Hid.
Qed.

Lemma outcomes_length cfg notify dry orders : forall w outs w',
  outcomes ops cfg notify dry orders w = Ok outs w' ->
  length outs = length orders.
Proof.
  intros w outs w' H. apply outcomes_records in H.
  symmetry. eapply Forall2_length; eassumption.
Qed.

(** An order that is skipped where the batch starts can be left out of the
    batch. *)
Lemma process_loop_drop_skipped cfg notify dry ref post pre :
  forall results failed w,
  (ref = None \/
   exists l, ref = Some l /\ status_not_pending (heap w l) = true) ->
  process_loop ops cfg notify dry (pre ++ ref :: post) results failed w =
  process_loop ops cfg notify dry (pre ++ post) results failed w.
Proof.
  induction pre as [|a pre IH]; intros results failed w Hs; simpl.
  - unfold bind at 1.
    destruct Hs as [->|(l & -> & Hs)].
    + reflexivity.
    + now rewrite (process_order_not_pending cfg notify dry l w Hs).
  - unfold bind.
    destruct (process_order ops cfg notify dry a w) as [out w1|] eqn:Hp;
      [|reflexivity].
    assert (Hs1 : ref = None \/
              exists l, ref = Some l /\ status_not_pending (heap w1 l) = true).
    { destruct Hs as [->|(l & -> & Hs)]; [now left|right].
      exists l. split; [reflexivity|].
      pose proof (process_order_keeps_skipped cfg notify dry a w l Hs) as Hk.
      rewrite Hp in Hk. simpl in Hk. now rewrite Hk. }
    destruct out; apply IH; exact Hs1.
Qed.

(** Over a whole batch an order is rewritten at most once, by lines 51-52,
    and only if the batch refers to it while it is pending. *)
Lemma process_loop_heap cfg notify dry orders l' : forall results failed w,
  let r := process_loop ops cfg notify dry orders results failed w in
  heap (world_of r) l' = heap w l' \/
  (dry = false /\ In (Some l') orders /\
   status_not_pending (heap w l') = false /\
   exists t, heap (world_of r) l' = mark_processed (heap w l') t).
Proof.
  induction orders as [|ref rest IH]; intros results failed w; simpl.
  - left. reflexivity.
  - unfold bind.
    pose proof (process_order_heap cfg notify dry ref w l') as Hstep.
    destruct (process_order ops cfg notify dry ref w) as [out w1|e w1] eqn:Hp;
      simpl in Hstep.
    + assert (Hrest : forall rs fs,
                heap (world_of (process_loop ops cfg notify dry rest rs fs w1)) l'
                = heap w1 l' \/
                (dry = false /\ In (Some l') rest /\
                 status_not_pending (heap w1 l') = false /\
                 exists t,
                   heap (world_of (process_loop ops cfg notify dry rest rs fs w1)) l'
                   = mark_processed (heap w1 l') t)).
      { intros rs fs. apply IH. }
      assert (Hgoal : forall rs fs,
                heap (world_of (process_loop ops cfg notify dry rest rs fs w1)) l'
                = heap w l' \/
                (dry = false /\ (ref = Some l' \/ In (Some l') rest) /\
                 status_not_pending (heap w l') = false /\
                 exists t,
                   heap (world_of (process_loop ops cfg notify dry rest rs fs w1)) l'
                   = mark_processed (heap w l') t)).
      { intros rs fs.
        destruct (Hrest rs fs) as [Hr|(Hd & Hin & Hs & t & Hr)];
          destruct Hstep as [Hst|(Hd' & Href & (its & total & Hv) & t' & Hst)].
        - left. congruence.
        - right. split; [exact Hd'|]. split; [now left|].
          split; [eapply verdict_commit_pending; eassumption|].
          exists t'. congruence.
        - right. split; [exact Hd|]. split; [now right|].
          rewrite Hst in Hs. split; [exact Hs|].
          exists t. congruence.
        - rewrite Hst in Hs. discriminate. }
      destruct out; apply Hgoal.
    + simpl. destruct Hstep as [Hst|(Hd' & Href & (its & total & Hv) & t' & Hst)].
      * left. exact Hst.
      * right. split; [exact Hd'|]. split; [now left|].
        split; [eapply verdict_commit_pending; eassumption|].
        now exists t'.
Qed.

(** A dry run of a whole batch only reads. *)
Lemma process_loop_dry cfg notify orders : forall results failed w,
  exists evs,
    world_of (process_loop ops cfg notify true orders results failed w)
    = add_events evs w /\
    Forall (fun ev => is_write ev = false) evs.
Proof.
  induction orders as [|ref rest IH]; intros results failed w; simpl.
  - exists []. rewrite add_events_nil. split; [reflexivity|constructor].
  - unfold bind.
    destruct (process_order_dry cfg notify ref w) as (evs & Hw & Hev).
    destruct (process_order ops cfg notify true ref w) as [out w1|e w1];
      simpl in Hw; subst w1.
    + assert (Hrest : forall rs fs, exists evs',
                world_of (process_loop ops cfg notify true rest rs fs
                                       (add_events evs w))
                = add_events evs' w /\
                Forall (fun ev => is_write ev = false) evs').
      { intros rs fs.
        destruct (IH rs fs (add_events evs w)) as (evs' & Hw' & Hev').
        exists (evs ++ evs'). rewrite Hw', add_events_app.
        split; [reflexivity|]. apply Forall_app. split; assumption. }
      destruct out; apply Hrest.
    + exists evs. split; [reflexivity|assumption].
Qed.

(** What a batch can raise. *)
Lemma process_loop_raise cfg notify dry orders : forall results failed w e w',
  process_loop ops cfg notify dry orders results failed w = Raise e w' ->
  e = KeyError "items" \/ (dry = false /\ (e = StoreError \/ e = LogError)).
Proof.
  induction orders as [|ref rest IH]; intros results failed w e w'; simpl.
  - discriminate.
  - unfold bind.
    destruct (process_order ops cfg notify dry ref w) as [out w1|e1 w1] eqn:Hp.
    + destruct out; apply IH.
    + intros [= <- _]. apply process_order_raise in Hp.
      destruct Hp as [(-> & _)|Hp]; [now left|now right].
Qed.


(** *** Verdicts from the data of the order *)

Lemma customer_ok_inv x o :
  customer_ok ops x o = true ->
  exists c, lookup_customer ops x (o_customer_id o) = Some c /\
            String.eqb (c_status c) "banned" = false.
Proof.
  unfold customer_ok.
  destruct (lookup_customer ops x (o_customer_id o)) as [c|]; [|discriminate].
  intros H. exists c. split; [reflexivity|]. now apply negb_true_iff.
Qed.

(** An order that passes the skip filter, the total check, the customer
    check and the stock check is priced. *)
Lemma verdict_of_priced cfg x o its d :
  o_status o = Some "pending"%string ->
  o_total o = Some d ->
  0 < d ->
  customer_ok ops x o = true ->
  o_items o = Some its ->
  forallb (in_stock ops x) its = true ->
  verdict_of ops cfg x o =
    (if total_mismatch (total_of cfg its) d
     then VFail "total mismatch"
     else VCommit its (total_of cfg its)) /\
  verdict_events ops x o =
    EvQueryCustomer (o_customer_id o) :: inventory_queries its.
Proof.
  intros Hs Ht Hd Hc Hi Hk.
  apply status_not_pending_false in Hs. apply Qleb_false in Hd.
  destruct (customer_ok_inv _ _ Hc) as (c & Hl & Hb).
  unfold verdict_of, verdict_events.
  rewrite Hs, Ht, Hi, Hl, Hb. simpl. rewrite Hd.
  rewrite (first_short_none _ _ Hk), (checked_all _ _ Hk).
  split; reflexivity.
Qed.

Lemma verdict_commit_inv cfg x o its total :
  verdict_of ops cfg x o = VCommit its total ->
  o_status o = Some "pending"%string /\
  0 < dict_get (o_total o) 0 /\
  customer_ok ops x o = true /\
  o_items o = Some its /\
  first_short ops x its = None /\
  total = total_of cfg its /\
  total_mismatch total (dict_get (o_total o) 0) = false.
Proof.
  unfold verdict_of, customer_ok.
  destruct (status_not_pending o) eqn:Hs; [discriminate|].
  destruct (Qleb (dict_get (o_total o) 0) 0) eqn:Hq; [discriminate|].
  destruct (lookup_customer ops x (o_customer_id o)) as [c|]; [|discriminate].
  destruct (String.eqb (c_status c) "banned"); [discriminate|].
  destruct (o_items o) as [its'|]; simpl.
  - destruct (first_short ops x its') eqn:Hf; [discriminate|].
    destruct (total_mismatch (total_of cfg its') (dict_get (o_total o) 0))
      eqn:Hm; [discriminate|].
    intros [= <- <-].
    repeat split; auto.
    + now apply status_not_pending_false.
    + now apply Qleb_false.
  - destruct (first_short ops x []); discriminate.
Qed.





Lemma total_mismatch_false total d :
  total_mismatch total d = false <-> Qabs (total - d) <= tolerance.
Proof. apply Qgtb_false. Qed.

Lemma process_loop_app cfg notify dry pre rest : forall results failed w,
  process_loop ops cfg notify dry (pre ++ rest) results failed w =
  (lists <- process_loop ops cfg notify dry pre results failed ;;
   process_loop ops cfg notify dry rest (fst lists) (snd lists)) w.
Proof.
  induction pre as [|a pre IH]; intros results failed w; simpl.
  - reflexivity.
  - unfold bind.
    destruct (process_order ops cfg notify dry a w) as [out w1|];
      [|reflexivity].
    destruct out; rewrite IH; reflexivity.
Qed.


(** *** Store errors in the commit *)

Lemma commit_store_error cfg notify l its total w :
  (decrement_all ops (ext w) its = None \/
   exists x1, decrement_all ops (ext w) its = Some x1 /\
              save_processed_order ops x1
                (mark_processed (heap w l) (now ops x1)) = None) ->
  exists w', commit ops cfg notify l its total w = Raise StoreError w'.
Proof.
  intros [Hd|(x1 & Hd & Hsave)].
  - destruct (update_inventory_fail _ _ Hd) as (w' & Hr & _).
    exists w'. unfold commit, bind. now rewrite Hr.
  - unfold commit, bind. rewrite (update_inventory_ok _ _ _ Hd).
    unfold set_status, datetime_now, set_processed_at, read_order. simpl.
    fold (heap_mark (heap w) l (now ops x1)). rewrite heap_mark_same.
    unfold execute_insert_processed, external_write. simpl. rewrite Hsave.
    eexists. reflexivity.
Qed.

(** *** Dry and committing runs of one iteration *)

Lemma process_order_dry_agrees cfg notify ref w out w' :
  process_order ops cfg notify false ref w = Ok out w' ->
  exists w'', process_order ops cfg notify true ref w = Ok out w''.
Proof.
  destruct ref as [l|]; [|intros [= <- _]; now exists w].
  rewrite !process_order_verdict.
  destruct (verdict_of ops cfg (ext w) (heap w l)) as [|reason| |its total].
  - intros [= <- _]. now exists w.
  - intros [= <- _]. eexists. reflexivity.
  - discriminate.
  - unfold bind, ret.
    destruct (commit ops cfg notify l its total _); [|discriminate].
    intros [= <- _]. eexists. reflexivity.
Qed.

End Properties.

(** ** Further supporting lemmas *)

Section MoreProperties.

Context {X : Type} (ops : collaborators X).

Implicit Types (w : world X) (l : loc) (o : order) (cfg : config)
         (its : list item).

(** *** The commit, case by case *)

Lemma update_inventory_app pre rest : forall w,
  update_inventory ops (pre ++ rest) w =
  (update_inventory ops pre ;; update_inventory ops rest) w.
Proof.
  induction pre as [|it pre IH]; intros w; simpl.
  - reflexivity.
  - unfold bind.
    destruct (execute_update_inventory ops (i_quantity it) (i_sku it) w)
      as [u w1|]; [|reflexivity].
    rewrite IH. reflexivity.
Qed.

(** A decrement that errors leaves the decrements before it in place. *)
Lemma update_inventory_partial pre it post w x1 :
  decrement_all ops (ext w) pre = Some x1 ->
  decrement_inventory ops x1 (i_quantity it) (i_sku it) = None ->
  update_inventory ops (pre ++ it :: post) w =
  Raise StoreError
        (mk_world x1 (heap w) (trace w ++ update_events (pre ++ [it]))).
Proof.
  intros Hpre Hit. rewrite update_inventory_app. unfold bind.
  rewrite (update_inventory_ok ops _ _ _ Hpre). simpl.
  unfold bind, execute_update_inventory, external_write. simpl.
  rewrite Hit. unfold record_event, update_events. simpl.
  now rewrite map_app, <- app_assoc.
Qed.

Lemma decrement_all_app pre rest x :
  decrement_all ops x (pre ++ rest) =
  match decrement_all ops x pre with
  | Some x1 => decrement_all ops x1 rest
  | None => None
  end.
Proof.
  revert x. induction pre as [|it pre IH]; intros x; simpl; [reflexivity|].
  destruct (decrement_inventory ops x (i_quantity it) (i_sku it)); auto.
Qed.

(** The commit when the log write errors: everything before it is done. *)
Lemma commit_log_error cfg notify l its total w x1 x2 :
  let o := mark_processed (heap w l) (now ops x1) in
  let n := mk_notification "order_processed" (o_id o) total in
  let x3 := after_notify ops cfg notify x2 n in
  decrement_all ops (ext w) its = Some x1 ->
  save_processed_order ops x1 o = Some x2 ->
  append_line ops x3 (log_dir cfg) (mk_log_line (now ops x3) (o_id o) total)
  = None ->
  commit ops cfg notify l its total w =
  Raise LogError
        (mk_world x3 (heap_mark (heap w) l (now ops x1))
                  (trace w ++ commit_events cfg notify o its total
                                            (now ops x3))).
Proof.
  intros o n x3 H1 H2 H4.
  unfold commit, bind. rewrite (update_inventory_ok ops _ _ _ H1).
  unfold set_status, datetime_now, set_processed_at, read_order. simpl.
  fold (heap_mark (heap w) l (now ops x1)).
  rewrite heap_mark_same. fold o.
  unfold execute_insert_processed, external_write. simpl. rewrite H2.
  unfold commit_events, notify_events.
  subst x3 n. unfold after_notify in *.
  change (o_id o) with (o_id (heap w l)) in *.
  destruct notify.
  - unfold try_except_pass, requests_post, external_write. simpl.
    destruct (send ops x2 (webhook_url cfg) _) as [x'|]; simpl;
      unfold write_log, external_write, record_event; simpl; rewrite H4;
      simpl; now rewrite <- !app_assoc.
  - unfold ret, write_log, external_write, record_event. simpl. rewrite H4.
    simpl. now rewrite <- !app_assoc.
Qed.

(** A commit that returns went through every step. *)
Lemma commit_ok_inv cfg notify l its total w u w' :
  commit ops cfg notify l its total w = Ok u w' ->
  exists x1 x2 x4,
    let o := mark_processed (heap w l) (now ops x1) in
    let n := mk_notification "order_processed" (o_id o) total in
    let x3 := after_notify ops cfg notify x2 n in
    decrement_all ops (ext w) its = Some x1 /\
    save_processed_order ops x1 o = Some x2 /\
    append_line ops x3 (log_dir cfg) (mk_log_line (now ops x3) (o_id o) total)
    = Some x4 /\
    w' = mk_world x4 (heap_mark (heap w) l (now ops x1))
                  (trace w ++ commit_events cfg notify o its total
                                            (now ops x3)).
Proof.
  intros Hc.
  destruct (decrement_all ops (ext w) its) as [x1|] eqn:Hd.
  2:{ destruct (commit_store_error ops cfg notify l its total w
                  (or_introl Hd)) as (w1 & Hr).
      rewrite Hr in Hc. discriminate. }
  destruct (save_processed_order ops x1
              (mark_processed (heap w l) (now ops x1))) as [x2|] eqn:Hs.
  2:{ destruct (commit_store_error ops cfg notify l its total w
                  (or_intror (ex_intro _ x1 (conj Hd Hs)))) as (w1 & Hr).
      rewrite Hr in Hc. discriminate. }
  set (o := mark_processed (heap w l) (now ops x1)) in *.
  set (n := mk_notification "order_processed" (o_id o) total).
  set (x3 := after_notify ops cfg notify x2 n).
  destruct (append_line ops x3 (log_dir cfg)
              (mk_log_line (now ops x3) (o_id o) total)) as [x4|] eqn:Hl.
  - exists x1, x2, x4. cbv zeta. fold o n x3.
    split; [reflexivity|]. split; [exact Hs|]. split; [exact Hl|].
    rewrite (commit_ok ops cfg notify l its total w x1 x2 x4 Hd Hs Hl) in Hc.
    now injection Hc as <-.
  - rewrite (commit_log_error cfg notify l its total w x1 x2 Hd Hs Hl) in Hc.
    discriminate.
Qed.


(** *** Traces of writes *)

Lemma update_inventory_trace its : forall w,
  exists evs,
    trace (world_of (update_inventory ops its w)) = trace w ++ evs /\
    Forall (fun ev => is_update ev = true) evs.
Proof.
  induction its as [|it rest IH]; intros w; simpl.
  - exists []. rewrite app_nil_r. split; [reflexivity|constructor].
  - unfold bind, execute_update_inventory, external_write.
    destruct (decrement_inventory ops (ext w) (i_quantity it) (i_sku it))
      as [x'|].
    + destruct (IH (mk_world x' (heap w)
                      (trace w ++ [EvUpdateInventory (i_quantity it)
                                                     (i_sku it)])))
        as (evs & Ht & Hev).
      exists (EvUpdateInventory (i_quantity it) (i_sku it) :: evs).
      rewrite Ht. simpl. rewrite <- app_assoc.
      split; [reflexivity|]. constructor; [reflexivity|exact Hev].
    + exists [EvUpdateInventory (i_quantity it) (i_sku it)].
      split; [reflexivity|]. repeat constructor.
Qed.

Section Traces.

Variable P : event -> Prop.
Variable notify : bool.
Hypothesis P_read : forall ev, is_write ev = false -> P ev.
Hypothesis P_update : forall ev, is_update ev = true -> P ev.
Hypothesis P_insert : forall o, P (EvInsertProcessed o).
Hypothesis P_log : forall dir ln, P (EvLogWrite dir ln).
Hypothesis P_post : notify = true -> forall url n, P (EvPost url n).

Lemma commit_trace cfg l its total w :
  exists evs,
    trace (world_of (commit ops cfg notify l its total w)) = trace w ++ evs /\
    Forall P evs.
Proof.
  destruct (update_inventory_trace its w) as (evs0 & Ht0 & Hev0).
  assert (HP0 : Forall P evs0).
  { eapply Forall_impl; [|exact Hev0]. exact P_update. }
  unfold commit, bind.
  destruct (update_inventory ops its w) as [u w1|e w1]; simpl in Ht0.
  2:{ exists evs0. split; assumption. }
  unfold set_status, datetime_now, set_processed_at, read_order,
    execute_insert_processed, try_except_pass, requests_post, write_log,
    external_write, ret; simpl.
  rewrite Ht0.
  assert (Hclose : forall evs, Forall P evs -> Forall P (evs0 ++ evs)).
  { intros evs Hevs. apply Forall_app. split; assumption. }
  destruct (save_processed_order ops (ext w1) _) as [x2|]; simpl.
  2:{ eexists. split; [rewrite <- !app_assoc; reflexivity|].
      apply Hclose. repeat constructor. apply P_insert. }
  destruct notify eqn:Hn; simpl.
  - destruct (send ops x2 _ _) as [x3|]; simpl;
      (destruct (append_line ops _ _ _); simpl;
       eexists; (split; [rewrite <- !app_assoc; reflexivity|]);
       apply Hclose;
       repeat (constructor;
               [first [apply P_insert | apply P_log
                       | apply P_post; reflexivity]|]);
       constructor).
  - destruct (append_line ops _ _ _); simpl;
      eexists; (split; [rewrite <- !app_assoc; reflexivity|]);
      apply Hclose;
      repeat (constructor; [first [apply P_insert | apply P_log]|]);
      constructor.
Qed.

Lemma process_order_trace cfg dry ref w :
  exists evs,
    trace (world_of (process_order ops cfg notify dry ref w)) = trace w ++ evs /\
    Forall P evs.
Proof.
  destruct ref as [l|].
  2:{ exists []. simpl. rewrite app_nil_r. split; [reflexivity|constructor]. }
  rewrite process_order_verdict.
  assert (Hq : Forall P (verdict_events ops (ext w) (heap w l))).
  { eapply Forall_impl; [|apply verdict_events_no_write]. exact P_read. }
  destruct (verdict_of ops cfg (ext w) (heap w l)) as [|reason| |its total].
  - exists []. simpl. rewrite app_nil_r. split; [reflexivity|constructor].
  - eexists. split; [reflexivity|exact Hq].
  - eexists. split; [reflexivity|exact Hq].
  - rewrite world_of_then. destruct dry.
    + eexists. split; [reflexivity|exact Hq].
    + set (w1 := add_events _ w).
      destruct (commit_trace cfg l its total w1) as (evs & Ht & Hev).
      exists (verdict_events ops (ext w) (heap w l) ++ evs).
      rewrite Ht. subst w1. simpl. rewrite <- app_assoc.
      split; [reflexivity|]. apply Forall_app. split; assumption.
Qed.

Lemma process_loop_trace cfg dry orders : forall results failed w,
  exists evs,
    trace (world_of (process_loop ops cfg notify dry orders results failed w))
    = trace w ++ evs /\
    Forall P evs.
Proof.
  induction orders as [|ref rest IH]; intros results failed w.
  - exists []. simpl. rewrite app_nil_r. split; [reflexivity|constructor].
  - rewrite process_loop_cons.
    destruct (process_order_trace cfg dry ref w) as (evs & Ht & Hev).
    destruct (process_order ops cfg notify dry ref w) as [out w1|e w1];
      simpl in Ht.
    + assert (Hrest : forall rs fs, exists evs',
                trace (world_of (process_loop ops cfg notify dry rest rs fs w1))
                = trace w ++ evs' /\ Forall P evs').
      { intros rs fs. destruct (IH rs fs w1) as (evs' & Ht' & Hev').
        exists (evs ++ evs'). rewrite Ht', Ht, <- app_assoc.
        split; [reflexivity|]. apply Forall_app. split; assumption. }
      destruct out; apply Hrest.
    + exists evs. split; assumption.
Qed.

End Traces.

(** *** What a committing iteration leaves in the trace *)

Lemma reads_carry_nothing evs :
  Forall (fun ev => is_write ev = false) evs ->
  inserted evs = [] /\ logged evs = [] /\ posted evs = [].
Proof.
  induction 1 as [|ev evs Hev _ IH]; [repeat split|].
  destruct IH as (H1 & H2 & H3).
  unfold inserted, logged, posted in *. simpl. rewrite H1, H2, H3.
  destruct ev; try discriminate; repeat split.
Qed.

Lemma updates_carry_nothing its :
  inserted (update_events its) = [] /\ logged (update_events its) = [] /\
  posted (update_events its) = [].
Proof.
  induction its as [|it rest IH]; [repeat split|]. exact IH.
Qed.

Lemma inserted_app evs evs' : inserted (evs ++ evs') = inserted evs ++ inserted evs'.
Proof. apply flat_map_app. Qed.

Lemma logged_app evs evs' : logged (evs ++ evs') = logged evs ++ logged evs'.
Proof. apply flat_map_app. Qed.

Lemma posted_app evs evs' : posted (evs ++ evs') = posted evs ++ posted evs'.
Proof. apply flat_map_app. Qed.

Lemma commit_events_carry cfg notify o its total t' :
  inserted (commit_events cfg notify o its total t') = [o] /\
  logged (commit_events cfg notify o its total t')
  = [mk_log_line t' (o_id o) total] /\
  posted (commit_events cfg notify o its total t')
  = (if notify
     then [mk_notification "order_processed" (o_id o) total]
     else []).
Proof.
  unfold commit_events, notify_events.
  destruct (updates_carry_nothing its) as (H1 & H2 & H3).
  rewrite !inserted_app, !logged_app, !posted_app, H1, H2, H3.
  destruct notify; repeat split.
Qed.

(** What one returning iteration of a committing run adds to the trace. *)
Lemma process_order_audit cfg notify ref w out w' :
  process_order ops cfg notify false ref w = Ok out w' ->
  exists evs,
    trace w' = trace w ++ evs /\
    map o_id (inserted evs) = map pe_order_id (processed_of [out]) /\
    Forall (fun o => o_status o = Some "processed"%string) (inserted evs) /\
    map line_key (logged evs) = map entry_key (processed_of [out]) /\
    map notification_key (posted evs)
    = (if notify then map entry_key (processed_of [out]) else []).
Proof.
  destruct ref as [l|].
  2:{ intros [= <- <-]. exists []. rewrite app_nil_r.
      destruct notify; repeat split; constructor. }
  rewrite process_order_verdict.
  destruct (reads_carry_nothing _ (verdict_events_no_write ops (ext w)
                                                           (heap w l)))
    as (Hq1 & Hq2 & Hq3).
  destruct (verdict_of ops cfg (ext w) (heap w l)) as [|reason| |its total].
  - intros [= <- <-]. exists []. rewrite app_nil_r.
    destruct notify; repeat split; constructor.
  - intros [= <- <-]. eexists. split; [reflexivity|].
    rewrite Hq1, Hq2, Hq3. destruct notify; repeat split; constructor.
  - discriminate.
  - unfold bind, ret. set (w1 := add_events _ w).
    destruct (commit ops cfg notify l its total w1) as [u w2|] eqn:Hc;
      [|discriminate].
    intros [= <- <-].
    apply commit_ok_inv in Hc.
    destruct Hc as (x1 & x2 & x4 & _ & _ & _ & ->).
    eexists. subst w1. simpl. rewrite <- app_assoc.
    split; [reflexivity|].
    rewrite inserted_app, logged_app, posted_app, Hq1, Hq2, Hq3.
    match goal with
    | |- context [commit_events ?c ?n ?o ?i ?t ?t'] =>
        destruct (commit_events_carry c n o i t t') as (Hc1 & Hc2 & Hc3)
    end.
    rewrite Hc1, Hc2, Hc3. simpl.
    destruct notify; repeat split; repeat constructor.
Qed.

Lemma processed_of_cons out outs :
  processed_of (out :: outs) = processed_of [out] ++ processed_of outs.
Proof. destruct out; reflexivity. Qed.

Lemma outcomes_audit cfg notify orders : forall w outs w',
  outcomes ops cfg notify false orders w = Ok outs w' ->
  exists evs,
    trace w' = trace w ++ evs /\
    map o_id (inserted evs) = map pe_order_id (processed_of outs) /\
    Forall (fun o => o_status o = Some "processed"%string) (inserted evs) /\
    map line_key (logged evs) = map entry_key (processed_of outs) /\
    map notification_key (posted evs)
    = (if notify then map entry_key (processed_of outs) else []).
Proof.
  induction orders as [|ref rest IH]; intros w outs w'; simpl.
  - intros [= <- <-]. exists []. rewrite app_nil_r.
    destruct notify; repeat split; constructor.
  - unfold bind, ret.
    destruct (process_order ops cfg notify false ref w) as [out w1|] eqn:Hp;
      [|discriminate].
    destruct (outcomes ops cfg notify false rest w1) as [outs1 w2|] eqn:Ho;
      [|discriminate].
    intros [= <- <-].
    destruct (process_order_audit _ _ _ _ _ _ Hp)
      as (evs & Ht & H1 & H2 & H3 & H4).
    destruct (IH _ _ _ Ho) as (evs' & Ht' & H1' & H2' & H3' & H4').
    exists (evs ++ evs'). rewrite Ht', Ht, <- app_assoc.
    split; [reflexivity|].
    rewrite inserted_app, logged_app, posted_app, !map_app,
      (processed_of_cons out outs1), !map_app, H1, H1', H3, H3', H4, H4'.
    split; [reflexivity|]. split; [apply Forall_app; split; assumption|].
    split; [reflexivity|].
    destruct notify; reflexivity.
Qed.

(** *** Invariants over a batch *)

Lemma process_loop_keeps_skipped cfg notify dry orders results failed w l :
  status_not_pending (heap w l) = true ->
  heap (world_of (process_loop ops cfg notify dry orders results failed w)) l
  = heap w l.
Proof.
  intros Hs.
  destruct (process_loop_heap ops cfg notify dry orders l results failed w)
    as [H|(_ & _ & Hp & _)]; [exact H|congruence].
Qed.

Lemma verdict_fail_reason cfg x o reason :
  verdict_of ops cfg x o = VFail reason -> known_reason reason.
Proof.
  unfold verdict_of, known_reason.
  destruct (status_not_pending o); [discriminate|].
  destruct (Qleb _ 0); [intros [= <-]; now left|].
  destruct (lookup_customer ops x (o_customer_id o)) as [c|];
    [|intros [= <-]; right; now left].
  destruct (String.eqb (c_status c) "banned");
    [intros [= <-]; right; right; now left|].
  destruct (first_short ops x (dict_get (o_items o) [])) as [it|].
  - intros [= <-]. right. right. right. left. now exists (i_sku it).
  - destruct (o_items o) as [its|]; [|discriminate].
    destruct (total_mismatch _ _); [|discriminate].
    intros [= <-]. right. right. right. now right.
Qed.

Lemma process_order_vocabulary cfg notify dry ref w out w' :
  process_order ops cfg notify dry ref w = Ok out w' ->
  match out with
  | Skipped => True
  | Failed e => known_reason (fe_reason e)
  | Processed e => pe_status e = "processed"%string
  end.
Proof.
  destruct ref as [l|]; [|intros [= <- _]; exact I].
  rewrite process_order_verdict.
  destruct (verdict_of ops cfg (ext w) (heap w l)) as [|reason| |its total]
    eqn:Hv.
  - intros [= <- _]. exact I.
  - intros [= <- _]. simpl. eapply verdict_fail_reason; eassumption.
  - discriminate.
  - unfold bind, ret. destruct dry.
    + intros [= <- _]. reflexivity.
    + destruct (commit ops cfg notify l its total _); [|discriminate].
      intros [= <- _]. reflexivity.
Qed.

Lemma outcomes_Forall (Q : outcome -> Prop) cfg notify dry :
  (forall ref w out w',
     process_order ops cfg notify dry ref w = Ok out w' -> Q out) ->
  forall orders w outs w',
    outcomes ops cfg notify dry orders w = Ok outs w' -> Forall Q outs.
Proof.
  intros HQ. induction orders as [|ref rest IH]; intros w outs w'; simpl.
  - intros [= <- _]. constructor.
  - unfold bind, ret.
    destruct (process_order ops cfg notify dry ref w) as [out w1|] eqn:Hp;
      [|discriminate].
    destruct (outcomes ops cfg notify dry rest w1) as [outs1 w2|] eqn:Ho;
      [|discriminate].
    intros [= <- _]. constructor; [eapply HQ; eassumption|].
    eapply IH; eassumption.
Qed.






Lemma world_of_process_orders cfg notify dry orders w :
  world_of (process_orders ops orders cfg notify dry w)
  = world_of (process_loop ops cfg notify dry orders [] [] w).
Proof.
  unfold process_orders, bind, ret.
  destruct (process_loop ops cfg notify dry orders [] [] w); reflexivity.
Qed.

Lemma process_order_commits_mark cfg notify l w e w' :
  process_order ops cfg notify false (Some l) w = Ok (Processed e) w' ->
  exists t, heap w' l = mark_processed (heap w l) t.
Proof.
  rewrite process_order_verdict.
  destruct (verdict_of ops cfg (ext w) (heap w l)) as [|reason| |its total];
    try discriminate.
  unfold bind, ret. set (w1 := add_events _ w).
  destruct (commit ops cfg notify l its total w1) as [u w2|] eqn:Hc;
    [|discriminate].
  intros [= _ <-]. apply commit_ok_inv in Hc.
  destruct Hc as (x1 & x2 & x4 & _ & _ & _ & ->).
  exists (now ops x1). simpl. apply heap_mark_same.
Qed.


(** *** Dry runs do not depend on the trace *)

Lemma process_order_dry_same cfg notify ref w w2 :
  ext w2 = ext w -> heap w2 = heap w ->
  match process_order ops cfg notify true ref w,
        process_order ops cfg notify true ref w2 with
  | Ok out wa, Ok out2 wb =>
      out2 = out /\ ext wb = ext wa /\ heap wb = heap wa
  | Raise e wa, Raise e2 wb => e2 = e
  | _, _ => False
  end.
Proof.
  intros Hx Hh. destruct ref as [l|]; [|simpl; auto].
  rewrite !process_order_verdict, Hx, Hh.
  destruct (verdict_of ops cfg (ext w) (heap w l)); simpl; auto.
Qed.

Lemma process_loop_dry_same cfg notify orders : forall results failed w w2,
  ext w2 = ext w -> heap w2 = heap w ->
  value_of (process_loop ops cfg notify true orders results failed w2)
  = value_of (process_loop ops cfg notify true orders results failed w) /\
  exception_of (process_loop ops cfg notify true orders results failed w2)
  = exception_of (process_loop ops cfg notify true orders results failed w).
Proof.
  induction orders as [|ref rest IH]; intros results failed w w2 Hx Hh.
  - split; reflexivity.
  - rewrite !process_loop_cons.
    pose proof (process_order_dry_same cfg notify ref w w2 Hx Hh) as Hs.
    destruct (process_order ops cfg notify true ref w) as [out wa|e wa];
      destruct (process_order ops cfg notify true ref w2) as [out2 wb|e2 wb];
      try contradiction.
    + destruct Hs as (-> & Hxa & Hha). destruct out; now apply IH.
    + subst e2. split; reflexivity.
Qed.


(** *** The skip filter and the outcomes *)

Lemma verdict_skip_iff cfg x o :
  verdict_of ops cfg x o = VSkip <-> status_not_pending o = true.
Proof.
  unfold verdict_of. destruct (status_not_pending o).
  - split; reflexivity.
  - split; [|discriminate].
    destruct (Qleb _ 0); [discriminate|].
    destruct (lookup_customer ops x (o_customer_id o)) as [c|];
      [|discriminate].
    destruct (String.eqb (c_status c) "banned"); [discriminate|].
    destruct (first_short ops x (dict_get (o_items o) [])); [discriminate|].
    destruct (o_items o); [|discriminate].
    destruct (total_mismatch _ _); discriminate.
Qed.

(** An iteration that returns skips exactly what the skip filter rejects. *)
Lemma process_order_skipped_iff cfg notify dry ref w out w' :
  process_order ops cfg notify dry ref w = Ok out w' ->
  (out = Skipped <-> skip_filter (heap w) ref = true).
Proof.
  destruct ref as [l|]; [|intros [= <- _]; split; reflexivity].
  rewrite process_order_verdict. simpl.
  rewrite <- (verdict_skip_iff cfg (ext w) (heap w l)).
  destruct (verdict_of ops cfg (ext w) (heap w l)) as [|reason| |its total].
  - intros [= <- _]. split; reflexivity.
  - intros [= <- _]. split; discriminate.
  - discriminate.
  - unfold bind, ret. destruct dry.
    + intros [= <- _]. split; discriminate.
    + destruct (commit ops cfg notify l its total _); [|discriminate].
      intros [= <- _]. split; discriminate.
Qed.

Lemma outcomes_app_inv cfg notify dry pre rest : forall w outs w',
  outcomes ops cfg notify dry (pre ++ rest) w = Ok outs w' ->
  exists outs1 w1 outs2,
    outcomes ops cfg notify dry pre w = Ok outs1 w1 /\
    outcomes ops cfg notify dry rest w1 = Ok outs2 w' /\
    outs = outs1 ++ outs2.
Proof.
  induction pre as [|a pre IH]; intros w outs w'; simpl.
  - intros H. exists [], w, outs. repeat split. exact H.
  - unfold bind, ret.
    destruct (process_order ops cfg notify dry a w) as [out w1|] eqn:Hp;
      [|discriminate].
    destruct (outcomes ops cfg notify dry (pre ++ rest) w1) as [outs' w2|]
      eqn:Ho; [|discriminate].
    intros [= <- <-].
    destruct (IH _ _ _ Ho) as (outs1 & wm & outs2 & H1 & H2 & ->).
    exists (out :: outs1), wm, outs2. rewrite H1. repeat split. exact H2.
Qed.

Lemma outcomes_world cfg notify dry orders w outs w' :
  outcomes ops cfg notify dry orders w = Ok outs w' ->
  world_of (process_loop ops cfg notify dry orders [] [] w) = w'.
Proof.
  intros Ho. rewrite process_loop_outcomes. unfold bind, ret.
  now rewrite Ho.
Qed.

(** The orders a prefix of the batch does not refer to, and the orders that
    are not pending, are as they were when the prefix has run. *)
Lemma outcomes_keeps cfg notify dry orders w outs w' l :
  outcomes ops cfg notify dry orders w = Ok outs w' ->
  ~ In (Some l) orders \/ status_not_pending (heap w l) = true ->
  heap w' l = heap w l.
Proof.
  intros Ho Hl. apply outcomes_world in Ho. subst w'.
  destruct (process_loop_heap ops cfg notify dry orders l [] [] w)
    as [H|(_ & Hin & Hp & _)]; [exact H|].
  destruct Hl as [Hn|Hs]; [contradiction|congruence].
Qed.

End MoreProperties.
(** ** The claims of the specification *)




(** C3: when the item list of an order that reaches the inventory check has
    an item whose stock record is missing or too small, the order is
    recorded failed with "insufficient stock for" the SKU of the first such
    item; the store is asked about the items up to that one and not about
    the later ones, and nothing is written: the store and the orders are
    unchanged. *)
Theorem C3_inventory_short_circuit {X : Type} (ops : collaborators X)
        (cfg : config) (notify dry : bool) (l : loc) (w : world X)
        (pre post : list item) (it : item) (d : Q) :
  o_status (heap w l) = Some "pending"%string ->
  o_total (heap w l) = Some d ->
  0 < d ->
  customer_ok ops (ext w) (heap w l) = true ->
  o_items (heap w l) = Some (pre ++ it :: post) ->
  forallb (in_stock ops (ext w)) pre = true ->
  (lookup_inventory ops (ext w) (i_sku it) = None \/
   exists s, lookup_inventory ops (ext w) (i_sku it) = Some s /\
             (s_quantity s < i_quantity it)%Z) ->
  let r := process_order ops cfg notify dry (Some l) w in
  r = Ok (Failed (mk_failed l ("insufficient stock for " ++ i_sku it)))
         (add_events (EvQueryCustomer (o_customer_id (heap w l))
                      :: inventory_queries (pre ++ [it])) w) /\
  ext (world_of r) = ext w /\
  heap (world_of r) = heap w /\
  trace (world_of r) =
    trace w ++ EvQueryCustomer (o_customer_id (heap w l))
            :: inventory_queries (pre ++ [it]).
Proof.
  intros Hs Ht Hd Hc Hi Hpre Hit r.
  assert (Hshort : in_stock ops (ext w) it = false).
  { unfold in_stock. destruct Hit as [->|(s & -> & Hlt)]; [reflexivity|].
    apply Z.ltb_lt in Hlt. now rewrite Hlt. }
  assert (Hr : r = Ok (Failed (mk_failed l ("insufficient stock for "
                                             ++ i_sku it)))
                      (add_events (EvQueryCustomer (o_customer_id (heap w l))
                                   :: inventory_queries (pre ++ [it])) w)).
  { subst r. rewrite process_order_verdict.
    apply status_not_pending_false in Hs. apply Qleb_false in Hd.
    destruct (customer_ok_inv _ _ _ Hc) as (c & Hl & Hb).
    unfold verdict_of, verdict_events.
    rewrite Hs, Ht, Hi, Hl, Hb. simpl. rewrite Hd.
    rewrite (first_short_at ops _ _ _ post Hpre Hshort).
    rewrite (checked_at ops _ _ _ post Hpre Hshort). reflexivity. }
  rewrite Hr. repeat split; reflexivity.
Qed.

(** One unit each of "A", "B", "A" while only "A" is stocked: the order
    fails at "B", the second "A" is never looked up and the stock of "A" is
    untouched. *)
Lemma C3_inventory_short_circuit_witness :
  process_order Mem.ops Mem.cfg true false (Some 0%nat) Mem.world_short =
  Ok (Failed (mk_failed 0%nat "insufficient stock for B"))
     (add_events [EvQueryCustomer 7; EvQueryInventory "A";
                  EvQueryInventory "B"] Mem.world_short) /\
  Mem.inventory
    (ext (world_of (process_order Mem.ops Mem.cfg true false (Some 0%nat)
                                  Mem.world_short)))
  = [("A"%string, 5%Z)].
Proof.
  destruct (C3_inventory_short_circuit Mem.ops Mem.cfg true false 0%nat
              Mem.world_short [mk_item "A" 10 1] [mk_item "A" 10 1]
              (mk_item "B" 10 1) 27
              eq_refl eq_refl eq_refl eq_refl eq_refl eq_refl
              (or_introl eq_refl))
    as (H1 & H2 & _).
  split; [exact H1|]. exact (f_equal Mem.inventory H2).
Defined.

(** C9: a pending order without a [total] key is treated as declaring 0 and
    is recorded failed with "invalid total", as is an order whose declared
    total is zero or negative; no collaborator is called. *)
Theorem C9_absent_total_is_invalid {X : Type} (ops : collaborators X)
        (cfg : config) (notify dry : bool) (l : loc) (w : world X) :
  o_status (heap w l) = Some "pending"%string ->
  (o_total (heap w l) = None \/
   exists d, o_total (heap w l) = Some d /\ d <= 0) ->
  (o_total (heap w l) = None -> dict_get (o_total (heap w l)) 0 = 0) /\
  dict_get (o_total (heap w l)) 0 <= 0 /\
  process_order ops cfg notify dry (Some l) w =
  Ok (Failed (mk_failed l "invalid total")) w.
Proof.
  intros Hs Ht.
  assert (Hle : dict_get (o_total (heap w l)) 0 <= 0).
  { destruct Ht as [->|(d & -> & Hd)]; simpl; [apply Qle_refl|exact Hd]. }
  split; [intros ->; reflexivity|]. split; [exact Hle|].
  apply status_not_pending_false in Hs.
  apply Qle_bool_iff in Hle.
  unfold process_order, bind, read_order. unfold Qleb. now rewrite Hs, Hle.
Qed.

Lemma C9_absent_total_is_invalid_witness :
  process_order Mem.ops Mem.cfg true false (Some 0%nat) Mem.world_no_total =
  Ok (Failed (mk_failed 0%nat "invalid total")) Mem.world_no_total.
Proof.
  apply (C9_absent_total_is_invalid Mem.ops Mem.cfg true false 0%nat
           Mem.world_no_total eq_refl (or_introl eq_refl)).
Defined.




(** C2: when the batch returns, its result partitions the orders that were
    not skipped.  There is one outcome per input position, in input order;
    the processed list is the sequence of the processed outcomes and the
    failed list the sequence of the failure outcomes, each in input order; a
    failure entry refers to the order at its position and a processed entry
    carries that order's identifier; every position is skipped, processed or
    failed and nothing else; and the summary counts are the lengths of the
    two lists.  The skipped positions are exactly those the skip filter
    rejects when the iteration starts, that is in the state the orders
    before it have left: a null reference or an order that is not pending
    when the batch starts is skipped, and a reference met for the first
    time to an order that is pending when the batch starts is not, so it is
    in one of the two lists. *)
Theorem C2_batch_partition {X : Type} (ops : collaborators X)
        (orders : list (option loc)) (cfg : config) (notify dry : bool)
        (w w' : world X) (br : batch_result) :
  process_orders ops orders cfg notify dry w = Ok br w' ->
  exists outs,
    outcomes ops cfg notify dry orders w = Ok outs w' /\
    Forall2 (records (heap w)) orders outs /\
    br_processed br = processed_of outs /\
    br_failed br = failed_of outs /\
    length orders =
      (length (filter is_skipped outs) + length (br_processed br)
       + length (br_failed br))%nat /\
    sm_total (br_summary br) = length (br_processed br) /\
    sm_failed (br_summary br) = length (br_failed br) /\
    forall pre ref post,
      orders = pre ++ ref :: post ->
      exists outs_pre w_mid out outs_post,
        outcomes ops cfg notify dry pre w = Ok outs_pre w_mid /\
        length outs_pre = length pre /\
        outs = outs_pre ++ out :: outs_post /\
        (out = Skipped <-> skip_filter (heap w_mid) ref = true) /\
        (ref = None -> out = Skipped) /\
        (forall l, ref = Some l ->
           o_status (heap w l) <> Some "pending"%string -> out = Skipped) /\
        (forall l, ref = Some l ->
           o_status (heap w l) = Some "pending"%string ->
           ~ In (Some l) pre -> out <> Skipped).
Proof.
  rewrite process_orders_outcomes. unfold bind, ret.
  destruct (outcomes ops cfg notify dry orders w) as [outs w1|] eqn:Ho;
    [|discriminate].
  intros [= <- <-]. exists outs. simpl.
  split; [reflexivity|].
  split; [eapply outcomes_records; eassumption|].
  split; [reflexivity|]. split; [reflexivity|].
  split.
  { rewrite <- (outcomes_length ops _ _ _ _ _ _ _ Ho).
    clear Ho. induction outs as [|out outs IH]; [reflexivity|].
    destruct out; simpl; lia. }
  split; [reflexivity|]. split; [reflexivity|].
  intros pre ref post ->.
  destruct (outcomes_app_inv ops _ _ _ _ _ _ _ _ Ho)
    as (outs1 & wm & outs2 & Hpre & Hrest & ->).
  simpl in Hrest. unfold bind, ret in Hrest.
  destruct (process_order ops cfg notify dry ref wm) as [out w2|] eqn:Hp;
    [|discriminate].
  destruct (outcomes ops cfg notify dry post w2) as [outs3 w3|];
    [|discriminate].
  injection Hrest as <- _.
  pose proof (process_order_skipped_iff ops _ _ _ _ _ _ _ Hp) as Hiff.
  exists outs1, wm, out, outs3.
  split; [exact Hpre|].
  split; [eapply outcomes_length; exact Hpre|].
  split; [reflexivity|]. split; [exact Hiff|].
  split; [intros ->; now apply Hiff|]. split.
  - intros l -> Hne. apply Hiff. simpl.
    apply status_not_pending_true in Hne.
    rewrite (outcomes_keeps ops _ _ _ _ _ _ _ l Hpre (or_intror Hne)).
    exact Hne.
  - intros l -> Hpend Hfirst Hsk. apply Hiff in Hsk. simpl in Hsk.
    rewrite (outcomes_keeps ops _ _ _ _ _ _ _ l Hpre (or_introl Hfirst))
      in Hsk.
    apply status_not_pending_false in Hpend. congruence.
Qed.

(** A null reference, a shipped order, a good order and a mispriced one:
    two skips, one processed entry, one failure entry. *)
Lemma C2_batch_partition_witness :
  exists outs,
    value_of (outcomes Mem.ops Mem.cfg true false Mem.batch_mixed
                       Mem.world_mixed) = Some outs /\
    Forall2 (records (heap Mem.world_mixed)) Mem.batch_mixed outs /\
    processed_of outs
    = [mk_processed 1 (total_of Mem.cfg [mk_item "A" 50 2]) "processed"] /\
    failed_of outs = [mk_failed 2%nat "total mismatch"].
Proof.
  assert (H : value_of (process_orders Mem.ops Mem.batch_mixed Mem.cfg true
                                       false Mem.world_mixed)
              = Some (mk_batch
                        [mk_processed 1 (total_of Mem.cfg [mk_item "A" 50 2])
                                      "processed"]
                        [mk_failed 2%nat "total mismatch"]
                        (mk_summary 1 1)))
    by (vm_compute; reflexivity).
  destruct (C2_batch_partition Mem.ops Mem.batch_mixed Mem.cfg true false
              Mem.world_mixed _ _ (value_of_ok _ _ H))
    as (outs & Ho & Hrec & Hp & Hf & _).
  exists outs.
  split; [exact (f_equal value_of Ho)|].
  split; [exact Hrec|].
  split; [symmetry; exact Hp | symmetry; exact Hf].
Defined.

(** C6: an order whose reference is null or whose status is not "pending"
    is skipped: its iteration returns at once, calls no collaborator and
    changes nothing, and the batch behaves exactly as the batch without that
    order (same result lists and counts, same store, orders and calls). *)
Theorem C6_skipped_orders {X : Type} (ops : collaborators X)
        (cfg : config) (notify dry : bool)
        (pre post : list (option loc)) (ref : option loc) (w : world X) :
  (ref = None \/
   exists l, ref = Some l /\ o_status (heap w l) <> Some "pending"%string) ->
  process_order ops cfg notify dry ref w = Ok Skipped w /\
  process_orders ops (pre ++ ref :: post) cfg notify dry w =
  process_orders ops (pre ++ post) cfg notify dry w.
Proof.
  intros Hs.
  assert (Hs' : ref = None \/
                exists l, ref = Some l /\ status_not_pending (heap w l) = true).
  { destruct Hs as [->|(l & -> & Hne)]; [now left|right].
    exists l. split; [reflexivity|]. now apply status_not_pending_true. }
  split.
  - destruct Hs' as [->|(l & -> & Hsk)]; [reflexivity|].
    now apply process_order_not_pending.
  - unfold process_orders, bind.
    now rewrite (process_loop_drop_skipped ops cfg notify dry ref post pre
                   [] [] w Hs').
Qed.

(** The shipped order at reference 0 can be dropped from a batch. *)
Lemma C6_skipped_orders_witness :
  process_order Mem.ops Mem.cfg true false (Some 0%nat) Mem.world_mixed
  = Ok Skipped Mem.world_mixed /\
  process_orders Mem.ops [Some 1%nat; Some 0%nat; Some 2%nat] Mem.cfg true
                 false Mem.world_mixed
  = process_orders Mem.ops [Some 1%nat; Some 2%nat] Mem.cfg true false
                   Mem.world_mixed.
Proof.
  apply (C6_skipped_orders Mem.ops Mem.cfg true false [Some 1%nat]
           [Some 2%nat] (Some 0%nat) Mem.world_mixed).
  right. exists 0%nat. split; [reflexivity|]. discriminate.
Defined.

(** C7: when an order is committed with [notify] set and the webhook call
    errors, the error is swallowed: the commit goes on to the log write and
    the order is recorded as processed, so a batch of that order returns
    its result; and whatever a batch raises, it is never the error of a
    webhook call. *)
Theorem C7_notification_failure_swallowed {X : Type} (ops : collaborators X)
        (cfg : config) (l : loc) (w : world X) (its : list item) (d : Q)
        (x1 x2 x4 : X) :
  o_status (heap w l) = Some "pending"%string ->
  o_total (heap w l) = Some d ->
  0 < d ->
  customer_ok ops (ext w) (heap w l) = true ->
  o_items (heap w l) = Some its ->
  forallb (in_stock ops (ext w)) its = true ->
  Qabs (total_of cfg its - d) <= tolerance ->
  let total := total_of cfg its in
  let o := mark_processed (heap w l) (now ops x1) in
  let n := mk_notification "order_processed" (o_id o) total in
  let w1 := add_events (EvQueryCustomer (o_customer_id (heap w l))
                        :: inventory_queries its) w in
  let entry := mk_processed (o_id (heap w l)) total "processed" in
  let w' := mk_world x4 (heap_mark (heap w) l (now ops x1))
                     (trace w1 ++ commit_events cfg true o its total
                                                (now ops x2)) in
  decrement_all ops (ext w) its = Some x1 ->
  save_processed_order ops x1 o = Some x2 ->
  send ops x2 (webhook_url cfg) n = None ->
  append_line ops x2 (log_dir cfg) (mk_log_line (now ops x2) (o_id o) total)
  = Some x4 ->
  process_order ops cfg true false (Some l) w = Ok (Processed entry) w' /\
  process_orders ops [Some l] cfg true false w =
  Ok (mk_batch [entry] [] (mk_summary 1 0)) w' /\
  (forall orders notify dry w0 e w0',
     process_orders ops orders cfg notify dry w0 = Raise e w0' ->
     e <> RequestError).
Proof.
  intros Hs Ht Hd Hc Hi Hk Hm total o n w1 entry w' Hdec Hsave Hsend Hlog.
  destruct (verdict_of_priced ops cfg _ _ _ _ Hs Ht Hd Hc Hi Hk) as [Hv He].
  apply total_mismatch_false in Hm. rewrite Hm in Hv.
  assert (Hpo : process_order ops cfg true false (Some l) w
                = Ok (Processed entry) w').
  { rewrite process_order_verdict, Hv, He. fold w1. unfold bind, ret.
    fold total.
    assert (Hx3 : after_notify ops cfg true x2 n = x2).
    { unfold after_notify. now rewrite Hsend. }
    pose proof (commit_ok ops cfg true l its total w1 x1 x2 x4 Hdec Hsave)
      as Hcommit.
    cbv zeta in Hcommit.
    change (mark_processed (heap w1 l) (now ops x1)) with o in Hcommit.
    change (mk_notification "order_processed" (o_id o) total) with n
      in Hcommit.
    rewrite Hx3 in Hcommit.
    rewrite (Hcommit Hlog). reflexivity. }
  split; [exact Hpo|]. split.
  - unfold process_orders, bind. rewrite process_loop_cons, Hpo. reflexivity.
  - intros orders notify dry w0 e w0' Hr.
    unfold process_orders, bind in Hr.
    destruct (process_loop ops cfg notify dry orders [] [] w0)
      as [lists w2|e2 w2] eqn:Hl; [discriminate|].
    injection Hr as <- _.
    apply process_loop_raise in Hl.
    destruct Hl as [->|(_ & [->| ->])]; discriminate.
Qed.

(** The webhook is down: the order is processed all the same, the post was
    attempted and the log line written. *)
Lemma C7_notification_failure_swallowed_witness :
  exists w',
    process_orders Mem.ops [Some 0%nat] Mem.cfg true false Mem.world_net_down
    = Ok (mk_batch [mk_processed 1 (total_of Mem.cfg [mk_item "A" 10 1])
                                 "processed"]
                   [] (mk_summary 1 0)) w' /\
    Mem.posts (ext w') = [] /\
    length (Mem.log (ext w')) = 1%nat.
Proof.
  destruct (C7_notification_failure_swallowed Mem.ops Mem.cfg 0%nat
              Mem.world_net_down [mk_item "A" 10 1] 16 _ _ _
              eq_refl eq_refl eq_refl eq_refl eq_refl eq_refl
              ltac:(vm_compute; discriminate)
              eq_refl eq_refl eq_refl eq_refl)
    as (_ & H & _).
  eexists. split; [exact H|]. split; reflexivity.
Defined.

(** C8 fails on the code: the order is marked at lines 51-52, before the
    insert and the log write.  With a log that cannot be written the batch
    of one good order raises, so the order is not processed successfully
    and is in no result list, yet its status is now "processed" and its
    timestamp is set. *)
Lemma C8_marked_before_commit_counterexample :
  let r := process_orders Mem.ops [Some 0%nat] Mem.cfg true false
                          Mem.world_log_down in
  o_status (heap Mem.world_log_down 0%nat) = Some "pending"%string /\
  exception_of r = Some LogError /\
  value_of r = None /\
  o_status (heap (world_of r) 0%nat) = Some "processed"%string /\
  o_processed_at (heap (world_of r) 0%nat) = Some 1000%Z.
Proof. vm_compute. repeat split. Qed.

(** C8, amended: the pipeline rewrites an order only at lines 51-52: in a
    run that commits ([dry_run] false), for the order of the current
    iteration, after it has passed every validation stage; what changes is
    its status and its processed timestamp and no other field.  An
    iteration that skips an order or records it failed leaves every order
    as it was, a dry run leaves every order as it was, and over a batch an
    order is rewritten at most once and only if the batch refers to it
    while it is pending.  (An order whose insert or log write errors stays
    marked although it is not recorded as processed.) *)
Theorem C8_order_mutation {X : Type} (ops : collaborators X)
        (cfg : config) (notify dry : bool) :
  (forall o t,
     o_id (mark_processed o t) = o_id o /\
     o_customer_id (mark_processed o t) = o_customer_id o /\
     o_total (mark_processed o t) = o_total o /\
     o_items (mark_processed o t) = o_items o /\
     o_status (mark_processed o t) = Some "processed"%string /\
     o_processed_at (mark_processed o t) = Some t) /\
  (forall ref w l',
     let r := process_order ops cfg notify dry ref w in
     heap (world_of r) l' = heap w l' \/
     (dry = false /\ ref = Some l' /\
      (o_status (heap w l') = Some "pending"%string /\
       0 < dict_get (o_total (heap w l')) 0 /\
       customer_ok ops (ext w) (heap w l') = true /\
       exists its,
         o_items (heap w l') = Some its /\
         first_short ops (ext w) its = None /\
         total_mismatch (total_of cfg its) (dict_get (o_total (heap w l')) 0)
         = false) /\
      exists t, heap (world_of r) l' = mark_processed (heap w l') t)) /\
  (forall ref w out w',
     process_order ops cfg notify dry ref w = Ok out w' ->
     match out with
     | Skipped => w' = w
     | Failed _ => heap w' = heap w /\ ext w' = ext w
     | Processed _ =>
         exists l, ref = Some l /\
                   (dry = true -> heap w' = heap w) /\
                   (dry = false -> exists t, heap w' = heap_mark (heap w) l t)
     end) /\
  (forall orders w l',
     let r := process_orders ops orders cfg notify dry w in
     heap (world_of r) l' = heap w l' \/
     (dry = false /\ In (Some l') orders /\
      o_status (heap w l') = Some "pending"%string /\
      exists t, heap (world_of r) l' = mark_processed (heap w l') t)).
Proof.
  split; [intros o t; repeat split|].
  split.
  { intros ref w l' r.
    destruct (process_order_heap ops cfg notify dry ref w l')
      as [H|(Hd & Href & (its & total & Hv) & Ht)]; [now left|right].
    split; [exact Hd|]. split; [exact Href|]. split; [|exact Ht].
    apply verdict_commit_inv in Hv.
    destruct Hv as (H1 & H2 & H3 & H4 & H5 & -> & H7).
    split; [exact H1|]. split; [exact H2|]. split; [exact H3|].
    exists its. repeat split; assumption. }
  split.
  { intros ref w out w' Hr.
    pose proof (process_order_ok_inv ops _ _ _ _ _ _ _ Hr) as Hinv.
    destruct out as [|e|e].
    - exact Hinv.
    - destruct Hinv as (l & _ & _ & He & Hh). split; assumption.
    - destruct Hinv as (l & -> & _ & _). exists l. split; [reflexivity|].
      rewrite process_order_verdict in Hr.
      destruct (verdict_of ops cfg (ext w) (heap w l)); try discriminate.
      unfold bind, ret in Hr. split.
      + intros ->. now injection Hr as _ <-.
      + intros ->. set (w1 := add_events _ w) in Hr.
        destruct (commit_heap ops cfg notify l items total w1)
          as [(_ & _ & w2 & Hc)|(x1 & _ & Hh)].
        * rewrite Hc in Hr. discriminate.
        * destruct (commit ops cfg notify l items total w1) as [u w2|];
            [|discriminate].
          injection Hr as _ <-. exists (now ops x1). exact Hh. }
  intros orders w l' r. subst r.
  assert (Hw : world_of (process_orders ops orders cfg notify dry w)
               = world_of (process_loop ops cfg notify dry orders [] [] w)).
  { unfold process_orders, bind, ret.
    destruct (process_loop ops cfg notify dry orders [] [] w); reflexivity. }
  rewrite Hw.
  destruct (process_loop_heap ops cfg notify dry orders l' [] [] w)
    as [H|(Hd & Hin & Hs & Ht)]; [now left|right].
  split; [exact Hd|]. split; [exact Hin|]. split; [|exact Ht].
  now apply status_not_pending_false.
Qed.

(** The good order of the mixed batch is marked by its committing
    iteration, at its own reference. *)
Lemma C8_order_mutation_witness :
  exists l t,
    Some 1%nat = Some l /\
    heap (world_of (process_order Mem.ops Mem.cfg true false (Some 1%nat)
                                  Mem.world_mixed))
    = heap_mark (heap Mem.world_mixed) l t.
Proof.
  assert (H : value_of (process_order Mem.ops Mem.cfg true false (Some 1%nat)
                                      Mem.world_mixed)
              = Some (Processed
                        (mk_processed 1 (total_of Mem.cfg [mk_item "A" 50 2])
                                      "processed")))
    by (vm_compute; reflexivity).
  destruct (proj1 (proj2 (proj2 (C8_order_mutation Mem.ops Mem.cfg true false)))
                  (Some 1%nat) Mem.world_mixed _ _ (value_of_ok _ _ H))
    as (l & Hl & _ & Hm).
  destruct (Hm eq_refl) as (t & Ht).
  exists l, t. split; [exact Hl | exact Ht].
Defined.

(** C4 fails on the code: with a database that refuses writes, the batch of
    one good order raises the store's error and returns no result. *)
Lemma C4_store_error_counterexample :
  exception_of (process_orders Mem.ops [Some 0%nat] Mem.cfg true false
                               Mem.world_db_down) = Some StoreError /\
  value_of (process_orders Mem.ops [Some 0%nat] Mem.cfg true false
                           Mem.world_db_down) = None.
Proof. vm_compute. split; reflexivity. Qed.

(** C4, amended: when a decrement or the insert of the processed order
    errors during the commit of an order, the error is raised out of the
    iteration and out of the batch: no result is returned, the order is in
    neither list, and the batch ends in the very state the failing
    iteration left, whatever orders follow in the batch, so the orders
    after it are not visited. *)
Theorem C4_store_error_propagates {X : Type} (ops : collaborators X)
        (cfg : config) (notify : bool) (pre : list (option loc))
        (l : loc) (w0 w : world X) (outs : list outcome)
        (its : list item) (d : Q) :
  outcomes ops cfg notify false pre w0 = Ok outs w ->
  o_status (heap w l) = Some "pending"%string ->
  o_total (heap w l) = Some d ->
  0 < d ->
  customer_ok ops (ext w) (heap w l) = true ->
  o_items (heap w l) = Some its ->
  forallb (in_stock ops (ext w)) its = true ->
  Qabs (total_of cfg its - d) <= tolerance ->
  (decrement_all ops (ext w) its = None \/
   exists x1, decrement_all ops (ext w) its = Some x1 /\
              save_processed_order ops x1
                (mark_processed (heap w l) (now ops x1)) = None) ->
  exists w',
    process_order ops cfg notify false (Some l) w = Raise StoreError w' /\
    forall post,
      process_orders ops (pre ++ Some l :: post) cfg notify false w0
      = Raise StoreError w'.
Proof.
  intros Hpre Hs Ht Hd Hc Hi Hk Hm Herr.
  destruct (verdict_of_priced ops cfg _ _ _ _ Hs Ht Hd Hc Hi Hk) as [Hv He].
  apply total_mismatch_false in Hm. rewrite Hm in Hv.
  assert (Hpo : exists w', process_order ops cfg notify false (Some l) w
                           = Raise StoreError w').
  { rewrite process_order_verdict, Hv. unfold bind.
    set (w1 := add_events _ w).
    destruct (commit_store_error ops cfg notify l its (total_of cfg its) w1 Herr)
      as (w' & Hcommit).
    exists w'. now rewrite Hcommit. }
  destruct Hpo as (w' & Hpo). exists w'. split; [exact Hpo|].
  intros post.
  unfold process_orders. unfold bind at 1.
  rewrite process_loop_app. unfold bind at 1.
  rewrite process_loop_outcomes. unfold bind at 1. rewrite Hpre.
  unfold ret. cbn [fst snd]. now rewrite process_loop_cons, Hpo.
Qed.

(** The database refuses the first decrement of the second order of a
    batch: the first order fails on its total, then the batch raises. *)
Lemma C4_store_error_propagates_witness :
  exists w',
    process_orders Mem.ops [Some 1%nat; Some 0%nat; None] Mem.cfg true false
                   Mem.world_db_down_mixed
    = Raise StoreError w'.
Proof.
  destruct (C4_store_error_propagates Mem.ops Mem.cfg true [Some 1%nat]
              0%nat Mem.world_db_down_mixed _ _ [mk_item "A" 10 1] 16
              eq_refl eq_refl eq_refl eq_refl eq_refl eq_refl eq_refl
              ltac:(vm_compute; discriminate)
              (or_introl eq_refl))
    as (w' & _ & H).
  exists w'. exact (H [None]).
Defined.

(** C5 fails on the code: two good orders compete for the last unit of
    "A".  The dry run records both as processed; the committing run
    decrements the stock for the first and records the second as failed. *)
Lemma C5_dry_run_counterexample :
  let total := total_of Mem.cfg [mk_item "A" 10 1] in
  value_of (process_orders Mem.ops [Some 0%nat; Some 1%nat] Mem.cfg true true
                           Mem.world_last_unit)
  = Some (mk_batch [mk_processed 1 total "processed";
                    mk_processed 2 total "processed"]
                   [] (mk_summary 2 0)) /\
  value_of (process_orders Mem.ops [Some 0%nat; Some 1%nat] Mem.cfg true false
                           Mem.world_last_unit)
  = Some (mk_batch [mk_processed 1 total "processed"]
                   [mk_failed 1%nat "insufficient stock for A"]
                   (mk_summary 1 1)).
Proof. vm_compute. split; reflexivity. Qed.

(** C5, amended: a dry run performs no commit side effect: it leaves the
    store and every order as they were and makes no call but lookups; an
    order that passes every validation stage is recorded as processed with
    its computed total; and each iteration agrees with the committing run
    started in the same store and order state: whenever the committing
    iteration returns an outcome, the dry one returns the same outcome, so
    the results of the two runs agree on a batch of one order.  (On longer
    batches they can differ: the decrements and status updates of a
    committing run are seen by the orders that follow.) *)
Theorem C5_dry_run {X : Type} (ops : collaborators X)
        (cfg : config) (notify : bool) :
  (forall orders w,
     let r := process_orders ops orders cfg notify true w in
     ext (world_of r) = ext w /\
     heap (world_of r) = heap w /\
     exists evs, trace (world_of r) = trace w ++ evs /\
                 Forall (fun ev => is_write ev = false) evs) /\
  (forall l w its d,
     o_status (heap w l) = Some "pending"%string ->
     o_total (heap w l) = Some d ->
     0 < d ->
     customer_ok ops (ext w) (heap w l) = true ->
     o_items (heap w l) = Some its ->
     forallb (in_stock ops (ext w)) its = true ->
     Qabs (total_of cfg its - d) <= tolerance ->
     process_order ops cfg notify true (Some l) w =
     Ok (Processed (mk_processed (o_id (heap w l)) (total_of cfg its)
                                 "processed"))
        (add_events (EvQueryCustomer (o_customer_id (heap w l))
                     :: inventory_queries its) w)) /\
  (forall ref w out w',
     process_order ops cfg notify false ref w = Ok out w' ->
     exists w'', process_order ops cfg notify true ref w = Ok out w'') /\
  (forall ref w br w',
     process_orders ops [ref] cfg notify false w = Ok br w' ->
     exists w'', process_orders ops [ref] cfg notify true w = Ok br w'').
Proof.
  split.
  { intros orders w r. subst r.
    assert (Hw : world_of (process_orders ops orders cfg notify true w)
                 = world_of (process_loop ops cfg notify true orders [] [] w)).
    { unfold process_orders, bind, ret.
      destruct (process_loop ops cfg notify true orders [] [] w); reflexivity. }
    rewrite Hw.
    destruct (process_loop_dry ops cfg notify orders [] [] w)
      as (evs & -> & Hev).
    split; [reflexivity|]. split; [reflexivity|].
    exists evs. split; [reflexivity|exact Hev]. }
  split.
  { intros l w its d Hs Ht Hd Hc Hi Hk Hm.
    destruct (verdict_of_priced ops cfg _ _ _ _ Hs Ht Hd Hc Hi Hk) as [Hv He].
    apply total_mismatch_false in Hm. rewrite Hm in Hv.
    rewrite process_order_verdict, Hv, He. reflexivity. }
  split; [apply process_order_dry_agrees|].
  intros ref w br w'. unfold process_orders, bind.
  rewrite !process_loop_cons.
  destruct (process_order ops cfg notify false ref w) as [out w1|] eqn:Hp;
    [|discriminate].
  destruct (process_order_dry_agrees ops _ _ _ _ _ _ Hp) as (w'' & Hdry).
  rewrite Hdry.
  destruct out; unfold ret; simpl; intros [= <- _]; eexists; reflexivity.
Qed.

(** A batch of one good order: the dry run returns the result of the
    committing run. *)
Lemma C5_dry_run_witness :
  exists w'',
    process_orders Mem.ops [Some 0%nat] Mem.cfg true true Mem.world_a
    = Ok (mk_batch [mk_processed 1 (total_of Mem.cfg [mk_item "A" 50 2])
                                 "processed"]
                   [] (mk_summary 1 0)) w''.
Proof.
  assert (H : value_of (process_orders Mem.ops [Some 0%nat] Mem.cfg true false
                                       Mem.world_a)
              = Some (mk_batch
                        [mk_processed 1 (total_of Mem.cfg [mk_item "A" 50 2])
                                      "processed"]
                        [] (mk_summary 1 0)))
    by (vm_compute; reflexivity).
  exact (proj2 (proj2 (proj2 (C5_dry_run Mem.ops Mem.cfg true)))
               (Some 0%nat) Mem.world_a _ _ (value_of_ok _ _ H)).
Defined.

(** ** Further properties of [process_orders] *)

(** X1: a pending order with a positive declared total whose customer the
    store does not know is recorded failed with "customer not found"; the
    customer lookup is the only call made, whatever the items of the order
    are, and store and orders are unchanged. *)
Theorem X1_customer_not_found {X : Type} (ops : collaborators X)
        (cfg : config) (notify dry : bool) (l : loc) (w : world X) (d : Q) :
  o_status (heap w l) = Some "pending"%string ->
  o_total (heap w l) = Some d ->
  0 < d ->
  lookup_customer ops (ext w) (o_customer_id (heap w l)) = None ->
  process_order ops cfg notify dry (Some l) w =
  Ok (Failed (mk_failed l "customer not found"))
     (add_events [EvQueryCustomer (o_customer_id (heap w l))] w).
Proof.
  intros Hs Ht Hd Hc.
  apply status_not_pending_false in Hs. apply Qleb_false in Hd.
  unfold process_order, bind, read_order, query_customer.
  rewrite Hs, Ht. simpl. now rewrite Hd, Hc.
Qed.

Lemma X1_customer_not_found_witness :
  process_order Mem.ops Mem.cfg true false (Some 0%nat) Mem.world_customers =
  Ok (Failed (mk_failed 0%nat "customer not found"))
     (add_events [EvQueryCustomer 99] Mem.world_customers).
Proof.
  exact (X1_customer_not_found Mem.ops Mem.cfg true false 0%nat
           Mem.world_customers 16 eq_refl eq_refl eq_refl eq_refl).
Defined.

(** X2: a pending order with a positive declared total whose customer has
    status "banned" is recorded failed with "customer banned" before any
    stock is looked up: the customer lookup is the only call made, and store
    and orders are unchanged. *)
Theorem X2_customer_banned {X : Type} (ops : collaborators X)
        (cfg : config) (notify dry : bool) (l : loc) (w : world X) (d : Q)
        (c : customer) :
  o_status (heap w l) = Some "pending"%string ->
  o_total (heap w l) = Some d ->
  0 < d ->
  lookup_customer ops (ext w) (o_customer_id (heap w l)) = Some c ->
  c_status c = "banned"%string ->
  process_order ops cfg notify dry (Some l) w =
  Ok (Failed (mk_failed l "customer banned"))
     (add_events [EvQueryCustomer (o_customer_id (heap w l))] w).
Proof.
  intros Hs Ht Hd Hc Hb.
  apply status_not_pending_false in Hs. apply Qleb_false in Hd.
  apply String.eqb_eq in Hb.
  unfold process_order, bind, read_order, query_customer.
  rewrite Hs, Ht. simpl. now rewrite Hd, Hc, Hb.
Qed.

Lemma X2_customer_banned_witness :
  process_order Mem.ops Mem.cfg true false (Some 1%nat) Mem.world_customers =
  Ok (Failed (mk_failed 1%nat "customer banned"))
     (add_events [EvQueryCustomer 8] Mem.world_customers).
Proof.
  exact (X2_customer_banned Mem.ops Mem.cfg true false 1%nat
           Mem.world_customers 16 (mk_customer "banned")
           eq_refl eq_refl eq_refl eq_refl eq_refl).
Defined.

(** X3: a pending order without an [items] key that passes the total and
    customer checks passes the inventory loop without a lookup (the loop
    runs over the default empty list) and then raises [KeyError] at line 35,
    in a dry run as well; the exception leaves the batch, whose result is
    lost, whatever was recorded for the orders before it. *)
Theorem X3_missing_items_key {X : Type} (ops : collaborators X)
        (cfg : config) (notify dry : bool) (pre post : list (option loc))
        (l : loc) (w0 w : world X) (outs : list outcome) (d : Q) :
  outcomes ops cfg notify dry pre w0 = Ok outs w ->
  o_status (heap w l) = Some "pending"%string ->
  o_total (heap w l) = Some d ->
  0 < d ->
  customer_ok ops (ext w) (heap w l) = true ->
  o_items (heap w l) = None ->
  let w1 := add_events [EvQueryCustomer (o_customer_id (heap w l))] w in
  process_order ops cfg notify dry (Some l) w = Raise (KeyError "items") w1 /\
  process_orders ops (pre ++ Some l :: post) cfg notify dry w0
  = Raise (KeyError "items") w1.
Proof.
  intros Hpre Hs Ht Hd Hc Hi w1.
  assert (Hpo : process_order ops cfg notify dry (Some l) w
                = Raise (KeyError "items") w1).
  { apply status_not_pending_false in Hs. apply Qleb_false in Hd.
    destruct (customer_ok_inv ops _ _ Hc) as (c & Hl & Hb).
    rewrite process_order_verdict. unfold verdict_of, verdict_events.
    rewrite Hs, Ht, Hi, Hl, Hb. simpl. rewrite Hd. reflexivity. }
  split; [exact Hpo|].
  unfold process_orders. unfold bind at 1.
  rewrite process_loop_app. unfold bind at 1.
  rewrite process_loop_outcomes. unfold bind at 1. rewrite Hpre.
  unfold ret. cbn [fst snd]. now rewrite process_loop_cons, Hpo.
Qed.

Lemma X3_missing_items_key_witness :
  exception_of (process_orders Mem.ops [Some 1%nat; Some 2%nat; Some 0%nat]
                               Mem.cfg true true Mem.world_customers)
  = Some (KeyError "items").
Proof.
  exact (f_equal exception_of
           (proj2 (X3_missing_items_key Mem.ops Mem.cfg true true
                     [Some 1%nat] [Some 0%nat] 2%nat Mem.world_customers
                     _ _ 5 eq_refl eq_refl eq_refl eq_refl eq_refl
                     eq_refl))).
Defined.

(** X4: the commit of a valid order in a run that is not dry, when every
    store write and the log write succeed (the webhook may fail or not be
    called at all): the stock of every item is decremented in item order,
    then the order is marked and the marked order is inserted, then the
    webhook is called if [notify] is set, then the log line is written, and
    the order is recorded as processed with its computed total. *)
Theorem X4_commit_sequence {X : Type} (ops : collaborators X)
        (cfg : config) (notify : bool) (l : loc) (w : world X)
        (its : list item) (d : Q) (x1 x2 x4 : X) :
  o_status (heap w l) = Some "pending"%string ->
  o_total (heap w l) = Some d ->
  0 < d ->
  customer_ok ops (ext w) (heap w l) = true ->
  o_items (heap w l) = Some its ->
  forallb (in_stock ops (ext w)) its = true ->
  Qabs (total_of cfg its - d) <= tolerance ->
  let total := total_of cfg its in
  let o := mark_processed (heap w l) (now ops x1) in
  let n := mk_notification "order_processed" (o_id (heap w l)) total in
  let x3 := after_notify ops cfg notify x2 n in
  decrement_all ops (ext w) its = Some x1 ->
  save_processed_order ops x1 o = Some x2 ->
  append_line ops x3 (log_dir cfg)
              (mk_log_line (now ops x3) (o_id (heap w l)) total) = Some x4 ->
  process_order ops cfg notify false (Some l) w =
  Ok (Processed (mk_processed (o_id (heap w l)) total "processed"))
     (mk_world x4 (heap_mark (heap w) l (now ops x1))
        (trace w
         ++ EvQueryCustomer (o_customer_id (heap w l))
         :: inventory_queries its
         ++ update_events its
         ++ EvInsertProcessed o
         :: (if notify then [EvPost (webhook_url cfg) n] else [])
         ++ [EvLogWrite (log_dir cfg)
                        (mk_log_line (now ops x3) (o_id (heap w l)) total)])).
Proof.
  intros Hs Ht Hd Hc Hi Hk Hm total o n x3 Hdec Hsave Hlog.
  destruct (verdict_of_priced ops cfg _ _ _ _ Hs Ht Hd Hc Hi Hk) as [Hv He].
  apply total_mismatch_false in Hm. rewrite Hm in Hv.
  rewrite process_order_verdict, Hv, He. unfold bind, ret.
  set (w1 := add_events _ w).
  rewrite (commit_ok ops cfg notify l its (total_of cfg its) w1 x1 x2 x4
             Hdec Hsave Hlog).
  unfold commit_events, notify_events. subst w1. simpl.
  f_equal. f_equal. rewrite <- !app_assoc. simpl. reflexivity.
Qed.

(** Two units of "A" out of five, with the webhook up. *)
Lemma X4_commit_sequence_witness :
  exists w',
    process_order Mem.ops Mem.cfg true false (Some 0%nat) Mem.world_a
    = Ok (Processed (mk_processed 1 (total_of Mem.cfg [mk_item "A" 50 2])
                                  "processed")) w' /\
    Mem.inventory (ext w') = [("A"%string, 3%Z)] /\
    map is_write (trace w') = [false; false; true; true; true; true].
Proof.
  eexists. split.
  - exact (X4_commit_sequence Mem.ops Mem.cfg true 0%nat Mem.world_a
             [mk_item "A" 50 2] 115 _ _ _
             eq_refl eq_refl eq_refl eq_refl eq_refl eq_refl
             ltac:(vm_compute; discriminate)
             eq_refl eq_refl eq_refl).
  - split; reflexivity.
Defined.

(** X5: when the log write of a commit errors, the error is raised out of
    the iteration although the commit is otherwise done: the stock has been
    decremented, the order is marked and inserted and the webhook has been
    called; the order is recorded in neither list. *)
Theorem X5_log_error_after_commit {X : Type} (ops : collaborators X)
        (cfg : config) (notify : bool) (l : loc) (w : world X)
        (its : list item) (d : Q) (x1 x2 : X) :
  o_status (heap w l) = Some "pending"%string ->
  o_total (heap w l) = Some d ->
  0 < d ->
  customer_ok ops (ext w) (heap w l) = true ->
  o_items (heap w l) = Some its ->
  forallb (in_stock ops (ext w)) its = true ->
  Qabs (total_of cfg its - d) <= tolerance ->
  let total := total_of cfg its in
  let o := mark_processed (heap w l) (now ops x1) in
  let n := mk_notification "order_processed" (o_id (heap w l)) total in
  let x3 := after_notify ops cfg notify x2 n in
  let w1 := add_events (EvQueryCustomer (o_customer_id (heap w l))
                        :: inventory_queries its) w in
  decrement_all ops (ext w) its = Some x1 ->
  save_processed_order ops x1 o = Some x2 ->
  append_line ops x3 (log_dir cfg)
              (mk_log_line (now ops x3) (o_id (heap w l)) total) = None ->
  process_order ops cfg notify false (Some l) w =
  Raise LogError
        (mk_world x3 (heap_mark (heap w) l (now ops x1))
                  (trace w1 ++ commit_events cfg notify o its total
                                             (now ops x3))) /\
  forall rest,
    process_orders ops (Some l :: rest) cfg notify false w =
    Raise LogError
          (mk_world x3 (heap_mark (heap w) l (now ops x1))
                    (trace w1 ++ commit_events cfg notify o its total
                                               (now ops x3))).
Proof.
  intros Hs Ht Hd Hc Hi Hk Hm total o n x3 w1 Hdec Hsave Hlog.
  destruct (verdict_of_priced ops cfg _ _ _ _ Hs Ht Hd Hc Hi Hk) as [Hv He].
  apply total_mismatch_false in Hm. rewrite Hm in Hv.
  assert (Hpo : process_order ops cfg notify false (Some l) w =
                Raise LogError
                      (mk_world x3 (heap_mark (heap w) l (now ops x1))
                         (trace w1 ++ commit_events cfg notify o its total
                                                    (now ops x3)))).
  { rewrite process_order_verdict, Hv, He. unfold bind, ret. fold w1.
    fold total.
    rewrite (commit_log_error ops cfg notify l its total w1 x1 x2
               Hdec Hsave Hlog).
    reflexivity. }
  split; [exact Hpo|].
  intros rest. unfold process_orders, bind.
  now rewrite process_loop_cons, Hpo.
Qed.

(** The log cannot be written: the batch raises, yet the last unit of "A"
    is gone and the order is saved. *)
Lemma X5_log_error_after_commit_witness :
  exists w',
    process_orders Mem.ops [Some 0%nat] Mem.cfg true false Mem.world_log_down
    = Raise LogError w' /\
    Mem.inventory (ext w') = [("A"%string, 0%Z)] /\
    length (Mem.processed_orders (ext w')) = 1%nat /\
    o_status (heap w' 0%nat) = Some "processed"%string.
Proof.
  eexists. split.
  - exact (proj2 (X5_log_error_after_commit Mem.ops Mem.cfg true 0%nat
                    Mem.world_log_down [mk_item "A" 10 1] 16 _ _
                    eq_refl eq_refl eq_refl eq_refl eq_refl eq_refl
                    ltac:(vm_compute; discriminate)
                    eq_refl eq_refl eq_refl) []).
  - repeat split.
Defined.

(** X6: the decrements of a commit are not undone.  When the decrement of
    one item errors after the decrements of the items before it succeeded,
    the store's error is raised with those decrements in place; the order
    is not marked, nothing is inserted, posted or logged, and the items
    after the failing one are not touched. *)
Theorem X6_partial_decrement {X : Type} (ops : collaborators X)
        (cfg : config) (notify : bool) (l : loc) (w : world X)
        (pre post : list item) (it : item) (d : Q) (x1 : X) :
  o_status (heap w l) = Some "pending"%string ->
  o_total (heap w l) = Some d ->
  0 < d ->
  customer_ok ops (ext w) (heap w l) = true ->
  o_items (heap w l) = Some (pre ++ it :: post) ->
  forallb (in_stock ops (ext w)) (pre ++ it :: post) = true ->
  Qabs (total_of cfg (pre ++ it :: post) - d) <= tolerance ->
  decrement_all ops (ext w) pre = Some x1 ->
  decrement_inventory ops x1 (i_quantity it) (i_sku it) = None ->
  process_order ops cfg notify false (Some l) w =
  Raise StoreError
        (mk_world x1 (heap w)
           (trace w
            ++ EvQueryCustomer (o_customer_id (heap w l))
            :: inventory_queries (pre ++ it :: post)
            ++ update_events (pre ++ [it]))).
Proof.
  intros Hs Ht Hd Hc Hi Hk Hm Hpre Hit.
  destruct (verdict_of_priced ops cfg _ _ _ _ Hs Ht Hd Hc Hi Hk) as [Hv He].
  apply total_mismatch_false in Hm. rewrite Hm in Hv.
  rewrite process_order_verdict, Hv, He. unfold bind at 1, commit, bind at 1.
  set (w1 := add_events _ w).
  rewrite (update_inventory_partial ops pre it post w1 x1 Hpre Hit).
  subst w1. simpl. now rewrite <- app_assoc.
Qed.

(** One unit of "A" in a store that refuses negative stock, and an order
    with two lines of one unit each: both lines pass the stock check, the
    first decrement takes the unit, the second errors. *)
Lemma X6_partial_decrement_witness :
  exists w',
    process_order Mem.ops_checked Mem.cfg true false (Some 0%nat)
                  Mem.world_twice_a
    = Raise StoreError w' /\
    Mem.inventory (ext w') = [("A"%string, 0%Z)] /\
    o_status (heap w' 0%nat) = Some "pending"%string /\
    Mem.processed_orders (ext w') = [].
Proof.
  eexists. split.
  - exact (X6_partial_decrement Mem.ops_checked Mem.cfg true 0%nat
             Mem.world_twice_a [mk_item "A" 10 1] [] (mk_item "A" 10 1) 27 _
             eq_refl eq_refl eq_refl eq_refl eq_refl eq_refl
             ltac:(vm_compute; discriminate)
             eq_refl eq_refl).
  - repeat split.
Defined.

(** X7: an order committed by a run that is not dry is never processed
    again: its status is now "processed", so an iteration that meets the
    same order again - later in the batch or in a later batch, dry or not -
    skips it, and no later batch rewrites it. *)
Theorem X7_committed_order_not_reprocessed {X : Type} (ops : collaborators X)
        (cfg : config) (notify : bool) (l : loc) (w w' : world X)
        (e : processed_entry) :
  process_order ops cfg notify false (Some l) w = Ok (Processed e) w' ->
  o_status (heap w' l) = Some "processed"%string /\
  (forall cfg' notify' dry',
     process_order ops cfg' notify' dry' (Some l) w' = Ok Skipped w') /\
  (forall cfg' notify' dry' orders,
     let w'' := world_of (process_orders ops orders cfg' notify' dry' w') in
     heap w'' l = heap w' l /\
     forall cfg'' notify'' dry'',
       process_order ops cfg'' notify'' dry'' (Some l) w'' = Ok Skipped w'').
Proof.
  intros Hp.
  destruct (process_order_commits_mark ops _ _ _ _ _ _ Hp) as (t & Hm).
  assert (Hs : status_not_pending (heap w' l) = true) by now rewrite Hm.
  split; [now rewrite Hm|]. split.
  - intros cfg' notify' dry'. now apply process_order_not_pending.
  - intros cfg' notify' dry' orders w''. subst w''.
    rewrite world_of_process_orders.
    pose proof (process_loop_keeps_skipped ops cfg' notify' dry' orders [] []
                  w' l Hs) as Hk.
    split; [exact Hk|].
    intros cfg'' notify'' dry''. apply process_order_not_pending.
    now rewrite Hk.
Qed.

(** The good order of the first example, met again after its commit. *)
Lemma X7_committed_order_not_reprocessed_witness :
  let w' := world_of (process_order Mem.ops Mem.cfg true false (Some 0%nat)
                                    Mem.world_a) in
  process_order Mem.ops Mem.cfg true false (Some 0%nat) w' = Ok Skipped w'.
Proof.
  assert (H : value_of (process_order Mem.ops Mem.cfg true false (Some 0%nat)
                                      Mem.world_a)
              = Some (Processed
                        (mk_processed 1 (total_of Mem.cfg [mk_item "A" 50 2])
                                      "processed")))
    by (vm_compute; reflexivity).
  exact (proj1 (proj2 (X7_committed_order_not_reprocessed Mem.ops Mem.cfg true
                         0%nat Mem.world_a _ _ (value_of_ok _ _ H)))
               Mem.cfg true false).
Defined.

(** X8: in the result of a batch every failure entry carries one of the
    five reasons the source writes - "invalid total", "customer not found",
    "customer banned", "insufficient stock for" followed by a SKU, "total
    mismatch" - and every processed entry carries the status "processed". *)
Theorem X8_result_vocabulary {X : Type} (ops : collaborators X)
        (orders : list (option loc)) (cfg : config) (notify dry : bool)
        (w w' : world X) (br : batch_result) :
  process_orders ops orders cfg notify dry w = Ok br w' ->
  Forall (fun e => known_reason (fe_reason e)) (br_failed br) /\
  Forall (fun e => pe_status e = "processed"%string) (br_processed br).
Proof.
  rewrite process_orders_outcomes. unfold bind, ret.
  destruct (outcomes ops cfg notify dry orders w) as [outs w1|] eqn:Ho;
    [|discriminate].
  intros [= <- _]. simpl.
  pose proof (outcomes_Forall ops _ cfg notify dry
                (process_order_vocabulary ops cfg notify dry)
                _ _ _ _ Ho) as Hall.
  clear Ho. induction Hall as [|out outs Hout _ IH]; [split; constructor|].
  destruct IH as [IHf IHp].
  destruct out as [|e|e]; simpl; split; auto; constructor; auto.
Qed.

Lemma X8_result_vocabulary_witness :
  Forall (fun e => known_reason (fe_reason e))
         [mk_failed 2%nat "total mismatch"] /\
  Forall (fun e => pe_status e = "processed"%string)
         [mk_processed 1 (total_of Mem.cfg [mk_item "A" 50 2]) "processed"].
Proof.
  assert (H : value_of (process_orders Mem.ops Mem.batch_mixed Mem.cfg true
                                       false Mem.world_mixed)
              = Some (mk_batch
                        [mk_processed 1 (total_of Mem.cfg [mk_item "A" 50 2])
                                      "processed"]
                        [mk_failed 2%nat "total mismatch"]
                        (mk_summary 1 1)))
    by (vm_compute; reflexivity).
  exact (X8_result_vocabulary Mem.ops Mem.batch_mixed Mem.cfg true false
           Mem.world_mixed _ _ (value_of_ok _ _ H)).
Defined.



(** X10: with [notify] false the webhook is never called: whatever the
    batch does, returning or raising, dry or not, no call it makes is a
    post. *)
Theorem X10_no_post_without_notify {X : Type} (ops : collaborators X)
        (orders : list (option loc)) (cfg : config) (dry : bool)
        (w : world X) :
  exists evs,
    trace (world_of (process_orders ops orders cfg false dry w))
    = trace w ++ evs /\
    Forall (fun ev => is_post ev = false) evs.
Proof.
  rewrite world_of_process_orders.
  apply (process_loop_trace ops (fun ev => is_post ev = false) false).
  - intros ev. destruct ev; simpl; congruence.
  - intros ev. destruct ev; simpl; congruence.
  - reflexivity.
  - reflexivity.
  - discriminate.
Qed.

(** X11: the audit trail of a batch that returns from a run that is not
    dry.  The orders inserted into the store are, in order, the orders of
    the processed entries, each with status "processed"; the log lines
    written carry, in order, the identifier and total of the processed
    entries; and the webhook calls made carry the same when [notify] is
    set, while none is made otherwise.  Orders that were skipped or failed
    are neither inserted nor logged nor notified. *)
Theorem X11_audit_trail {X : Type} (ops : collaborators X)
        (orders : list (option loc)) (cfg : config) (notify : bool)
        (w w' : world X) (br : batch_result) :
  process_orders ops orders cfg notify false w = Ok br w' ->
  exists evs,
    trace w' = trace w ++ evs /\
    map o_id (inserted evs) = map pe_order_id (br_processed br) /\
    Forall (fun o => o_status o = Some "processed"%string) (inserted evs) /\
    map line_key (logged evs) = map entry_key (br_processed br) /\
    map notification_key (posted evs)
    = (if notify then map entry_key (br_processed br) else []).
Proof.
  rewrite process_orders_outcomes. unfold bind, ret.
  destruct (outcomes ops cfg notify false orders w) as [outs w1|] eqn:Ho;
    [|discriminate].
  intros [= <- <-]. simpl. eapply outcomes_audit; eassumption.
Qed.

Lemma X11_audit_trail_witness :
  exists evs,
    trace (world_of (process_orders Mem.ops Mem.batch_mixed Mem.cfg true false
                                    Mem.world_mixed))
    = trace Mem.world_mixed ++ evs /\
    map o_id (inserted evs) = [1%Z] /\
    map line_key (logged evs)
    = [(1%Z, total_of Mem.cfg [mk_item "A" 50 2])].
Proof.
  assert (H : value_of (process_orders Mem.ops Mem.batch_mixed Mem.cfg true
                                       false Mem.world_mixed)
              = Some (mk_batch
                        [mk_processed 1 (total_of Mem.cfg [mk_item "A" 50 2])
                                      "processed"]
                        [mk_failed 2%nat "total mismatch"]
                        (mk_summary 1 1)))
    by (vm_compute; reflexivity).
  destruct (X11_audit_trail Mem.ops Mem.batch_mixed Mem.cfg true
              Mem.world_mixed _ _ (value_of_ok _ _ H))
    as (evs & Ht & Hi & _ & Hl & _).
  exists evs. split; [exact Ht|]. split; [exact Hi | exact Hl].
Defined.

(** X12: a batch in which every reference is null or refers to an order
    that is not pending - the empty batch among them - returns the empty
    result with both counts 0, makes no call and changes nothing. *)
Theorem X12_nothing_to_do {X : Type} (ops : collaborators X)
        (orders : list (option loc)) (cfg : config) (notify dry : bool)
        (w : world X) :
  (forall ref, In ref orders ->
     ref = None \/
     exists l, ref = Some l /\ o_status (heap w l) <> Some "pending"%string) ->
  process_orders ops orders cfg notify dry w =
  Ok (mk_batch [] [] (mk_summary 0 0)) w.
Proof.
  intros Hall.
  assert (Hloop : process_loop ops cfg notify dry orders [] [] w
                  = Ok ([], []) w).
  { induction orders as [|ref rest IH]; [reflexivity|].
    rewrite process_loop_cons.
    assert (Hsk : process_order ops cfg notify dry ref w = Ok Skipped w).
    { destruct (Hall ref (or_introl eq_refl)) as [->|(l & -> & Hne)];
        [reflexivity|].
      apply process_order_not_pending. now apply status_not_pending_true. }
    rewrite Hsk. apply IH. intros r Hr. apply Hall. now right. }
  unfold process_orders, bind. now rewrite Hloop.
Qed.

Lemma X12_nothing_to_do_witness :
  process_orders Mem.ops [None; Some 0%nat; None] Mem.cfg true false
                 Mem.world_mixed
  = Ok (mk_batch [] [] (mk_summary 0 0)) Mem.world_mixed.
Proof.
  apply (X12_nothing_to_do Mem.ops [None; Some 0%nat; None] Mem.cfg true false
           Mem.world_mixed).
  intros ref [<-|[<-|[<-|[]]]].
  - now left.
  - right. exists 0%nat. split; [reflexivity|discriminate].
  - now left.
Defined.

(** X13: a dry run can be repeated: run again on what the first dry run
    left behind, the batch returns the same result, or raises the same
    exception, as the first time. *)
Theorem X13_dry_run_repeatable {X : Type} (ops : collaborators X)
        (orders : list (option loc)) (cfg : config) (notify : bool)
        (w : world X) :
  let r := process_orders ops orders cfg notify true w in
  value_of (process_orders ops orders cfg notify true (world_of r))
  = value_of r /\
  exception_of (process_orders ops orders cfg notify true (world_of r))
  = exception_of r.
Proof.
  intros r.
  destruct (process_loop_dry ops cfg notify orders [] [] w)
    as (evs & Hw & _).
  assert (Hr : world_of r = add_events evs w).
  { subst r. now rewrite world_of_process_orders. }
  destruct (process_loop_dry_same ops cfg notify orders [] [] w (world_of r))
    as [Hv He]; [now rewrite Hr | now rewrite Hr|].
  subst r. unfold process_orders, bind, ret in *.
  destruct (process_loop ops cfg notify true orders [] [] w)
    as [lists w1|e w1]; simpl in *;
    destruct (process_loop ops cfg notify true orders [] [] _)
      as [lists2 w2|e2 w2]; simpl in *; try discriminate.
  - injection Hv as ->. split; reflexivity.
  - injection He as ->. split; reflexivity.
Qed.
